(** * Heatmap target generation (DeepLabCut, PyTorch pose estimation)

    A shallow embedding of
    [deeplabcut/pose_estimation_pytorch/models/target_generators/heatmap_targets.py]:
    the class [HeatmapGenerator] with its two registered subclasses
    [HeatmapGaussianGenerator] and [HeatmapPlateauGenerator].

    Conventions of the embedding.
    - A numpy array is a shape together with a total indexing function
      ([ndarray]); the places where numpy checks an index or a shape are
      written out and raise the exception numpy raises.
    - In-place mutation through views ([heatmap[b, :, :, idx]] and the
      slices returned by [get_locref]) is modelled by taking the view,
      running [update] on it and storing the result back in the buffer.
      [update] returns the buffers it has mutated together with the exception
      it raised, if any: what was written before a [raise] stays written.
    - The grid is the [int64] array that [np.mgrid] builds; assigning a float
      expression to its slices truncates toward zero.  The strides are
      quotients of two integers and are computed exactly in [Q].
    - Floating-point values (keypoints, heatmaps, location refinement maps)
      are idealised as real numbers: rounding, overflow, [inf] and [nan] are
      outside of the model.  Where a statement depends on the rounding of the
      float32 heatmap buffer it is made about [float32.round] of the real
      value.  The grid agrees with the float64 arithmetic of lines 127, 146
      and 147 where that arithmetic is exact, as it is for integer strides;
      for other strides the float64 centre can fall just below an integer
      that the exact centre reaches.
    - Labels are arrays of coordinate pairs: rank 3 or 4 with a last axis of
      extent 2 ([coordinate_pairs]).  The loops read the two coordinates of
      a keypoint; what numpy does with labels of another rank or with a last
      axis of another extent (iterating a scalar, broadcasting the grid
      against the keypoint, subscripting [keypoint[1]]) is outside of the
      model. *)

From Stdlib Require Import List Arith Bool ZArith QArith Qround Reals Lia Lra.
From Stdlib Require Strings.Ascii Strings.String.
Import ListNotations.

Set Implicit Arguments.

(** Numerals and operators are those of [nat] unless a scope is given. *)
#[local] Close Scope R_scope.
#[local] Close Scope Q_scope.
#[local] Close Scope Z_scope.
#[local] Open Scope nat_scope.

(** ** Exceptions *)

Inductive exn : Type :=
| ValueError
| IndexError
| ZeroDivisionError
| KeyError
| TypeError.

Inductive result (A : Type) : Type :=
| OK (a : A)
| Raise (e : exn).

Arguments OK {A} a.
Arguments Raise {A} e.

Definition bind {A B : Type} (r : result A) (k : A -> result B) : result B :=
  match r with
  | OK a => k a
  | Raise e => Raise e
  end.

Notation "x <- r ;; k" := (bind r (fun x => k))
  (at level 61, r at next level, right associativity).

(** ** numpy arrays *)

Module np.

Record ndarray (A : Type) : Type := NDArray {
  shape : list nat;
  item : list nat -> A
}.

Arguments NDArray {A} shape item.
Arguments shape {A} n.
Arguments item {A} n idx.

(** [np.prod(shape)], the number of elements. *)
Definition size (sh : list nat) : nat := fold_right Nat.mul 1 sh.

(** An index is in bounds when it has the rank of the shape and every
    component is below the extent of its axis. *)
Definition in_bounds (idx sh : list nat) : Prop := Forall2 lt idx sh.

Definition zeros {A : Type} (zero : A) (sh : list nat) : ndarray A :=
  NDArray sh (fun _ => zero).

(** Position of axis [ax] in the list [axes]. *)
Fixpoint index_of (ax : nat) (axes : list nat) : nat :=
  match axes with
  | [] => 0
  | p :: q => if p =? ax then 0 else S (index_of ax q)
  end.

Definition is_permutation (axes : list nat) (rank : nat) : bool :=
  (length axes =? rank)
  && forallb (fun ax => existsb (Nat.eqb ax) axes) (seq 0 rank).

(** [a.transpose(axes)]: axis [k] of the result is axis [axes[k]] of [a].
    numpy raises [ValueError] when [axes] is not a permutation of the axes
    of [a]. *)
Definition transpose {A : Type} (axes : list nat) (a : ndarray A)
  : result (ndarray A) :=
  if is_permutation axes (length (shape a)) then
    OK (NDArray (map (fun p => nth p (shape a) 0) axes)
          (fun idx =>
             item a (map (fun ax => nth (index_of ax axes) idx 0)
                       (seq 0 (length axes)))))
  else Raise ValueError.

(** Row-major flat position of an index, and its inverse. *)
Fixpoint ravel (sh idx : list nat) : nat :=
  match sh, idx with
  | _ :: sh', i :: idx' => i * size sh' + ravel sh' idx'
  | _, _ => 0
  end.

Fixpoint unravel (sh : list nat) (n : nat) : list nat :=
  match sh with
  | [] => []
  | _ :: sh' => (n / size sh') :: unravel sh' (n mod size sh')
  end.

(** [a.reshape(new_shape)]: same elements in row-major order; [ValueError]
    when the number of elements differs. *)
Definition reshape {A : Type} (new_shape : list nat) (a : ndarray A)
  : result (ndarray A) :=
  if size new_shape =? size (shape a) then
    OK (NDArray new_shape
          (fun idx => item a (unravel (shape a) (ravel new_shape idx))))
  else Raise ValueError.

(** [np.mgrid[:h, :w]]: an integer array of shape [(2, h, w)] holding the
    row index in its first plane and the column index in its second. *)
Definition mgrid (h w : nat) : ndarray Z :=
  NDArray [2; h; w]
    (fun idx =>
       match idx with
       | [0; i; _] => Z.of_nat i
       | [_; _; j] => Z.of_nat j
       | _ => 0%Z
       end).

(** Conversion of a float to [int64] when it is stored in an integer array:
    the fractional part is dropped (truncation toward zero). *)
Definition astype_int (q : Q) : Z := Z.quot (Qnum q) (Z.pos (Qden q)).

(** [a[:, :, c] = f(a[:, :, c])] on an integer array of rank 3, where [f]
    yields floats. *)
Definition assign_component (c : nat) (f : Z -> Q) (a : ndarray Z)
  : ndarray Z :=
  NDArray (shape a)
    (fun idx =>
       match idx with
       | [i; j; k] =>
           if k =? c then astype_int (f (item a [i; j; c])) else item a idx
       | _ => item a idx
       end).

(** [a[b, :, :, c]] for a rank-4 array: a view of shape [(h, w)].
    [IndexError] when [b] or [c] is out of bounds. *)
Definition take_channel {A : Type} (a : ndarray A) (b c : nat)
  : result (ndarray A) :=
  match shape a with
  | [nb; h; w; nc] =>
      if (b <? nb) && (c <? nc) then
        OK (NDArray [h; w] (fun idx => item a (b :: idx ++ [c])))
      else Raise IndexError
  | _ => Raise IndexError
  end.

(** [a[b, :, :, start:stop]] for a rank-4 array: a view of shape
    [(h, w, n)]; a slice is clipped to the extent of its axis and never
    raises, the integer index [b] does. *)
Definition take_slice {A : Type} (a : ndarray A) (b start stop : nat)
  : result (ndarray A) :=
  match shape a with
  | [nb; h; w; nc] =>
      if b <? nb then
        OK (NDArray [h; w; Nat.min stop nc - Nat.min start nc]
              (fun idx =>
                 item a (b :: removelast idx ++ [start + last idx 0])))
      else Raise IndexError
  | _ => Raise IndexError
  end.

(** The effect on [a] of having mutated the view [a[b, :, :, c]] into [v]. *)
Definition put_channel {A : Type} (a : ndarray A) (b c : nat)
  (v : ndarray A) : ndarray A :=
  NDArray (shape a)
    (fun idx =>
       match idx with
       | [b'; i; j; c'] =>
           if (b' =? b) && (c' =? c) then item v [i; j] else item a idx
       | _ => item a idx
       end).

(** The effect on [a] of having mutated the view [a[b, :, :, start:stop]]
    into [v]. *)
Definition put_slice {A : Type} (a : ndarray A) (b start stop : nat)
  (v : ndarray A) : ndarray A :=
  NDArray (shape a)
    (fun idx =>
       match idx with
       | [b'; i; j; c'] =>
           if (b' =? b) && (start <=? c') && (c' <? stop)
           then item v [i; j; c' - start]
           else item a idx
       | _ => item a idx
       end).

(** [bool(a)] for an integer array, as in [if a:].  An array with more than
    one element has no truth value and numpy raises [ValueError]; an array
    with one element has the truth value of that element; an empty array is
    false. *)
Definition truth_value (a : ndarray Z) : result bool :=
  match size (shape a) with
  | 0 => OK false
  | 1 => OK (negb (Z.eqb (item a (map (fun _ => 0) (shape a))) 0%Z))
  | _ => Raise ValueError
  end.

End np.

Import np.

(** ** The grid of cell centres (lines 125-127 and 145-147) *)

(** Python's [a / b] on two integers. *)
Definition true_div (a b : nat) : result Q :=
  if b =? 0 then Raise ZeroDivisionError
  else OK (inject_Z (Z.of_nat a) / inject_Z (Z.of_nat b))%Q.

Definition build_grid (height width : nat) (stride_y stride_x : Q)
  : result (ndarray Z) :=
  grid <- transpose [1; 2; 0] (mgrid height width) ;;
  let grid :=
    assign_component 0
      (fun v => inject_Z v * stride_y + stride_y / inject_Z 2)%Q grid in
  let grid :=
    assign_component 1
      (fun v => inject_Z v * stride_x + stride_x / inject_Z 2)%Q grid in
  OK grid.

(** ** The generator (lines 25-90) *)

Inductive Mode : Type :=
| INDIVIDUAL
| KEYPOINT.

(** The registered subclasses, which differ in [update] only. *)
Inductive Kernel : Type :=
| Gaussian
| Plateau.

(** The arguments of [__init__], and the subclass that is instantiated. *)
Record HeatmapGenerator : Type := {
  kernel : Kernel;
  num_heatmaps : nat;
  pos_dist_thresh : Z;
  heatmap_mode : Mode;
  generate_locref : bool;
  locref_std : R
}.

(** The attributes that [__init__] derives from its arguments. *)
Definition dist_thresh (self : HeatmapGenerator) : R :=
  IZR (pos_dist_thresh self).

Definition dist_thresh_sq (self : HeatmapGenerator) : R :=
  (dist_thresh self ^ 2)%R.

Definition std (self : HeatmapGenerator) : R :=
  (2 * dist_thresh self / 3)%R.

Definition locref_scale (self : HeatmapGenerator) : R :=
  (1 / locref_std self)%R.

(** ** The names of the modes (lines 35-51 and 85-87) *)

Module enum.

Import Stdlib.Strings.Ascii Stdlib.Strings.String.

(** [member.value]. *)
Definition value (m : Mode) : string :=
  match m with
  | INDIVIDUAL => "INDIVIDUAL"
  | KEYPOINT => "KEYPOINT"
  end.

(** The members of [Mode], in the order of [for member in cls]. *)
Definition members : list Mode := [INDIVIDUAL; KEYPOINT].

(** The strings of the model are ASCII strings. *)
Definition is_ascii (s : string) : bool :=
  forallb (fun c => nat_of_ascii c <? 128) (list_ascii_of_string s).

(** [str.upper()] on an ASCII string: the letters [a] to [z] become [A] to
    [Z]. *)
Definition upper_char (c : ascii) : ascii :=
  let n := nat_of_ascii c in
  if (97 <=? n) && (n <=? 122) then ascii_of_nat (n - 32) else c.

Fixpoint upper (s : string) : string :=
  match s with
  | EmptyString => EmptyString
  | String c s' => String (upper_char c) (upper s')
  end.

(** [Mode._missing_] (lines 44-51) for a string. *)
Definition missing (v : string) : option Mode :=
  let v := upper v in
  find (fun member => (value member =? v)%string) members.

(** [Mode(v)] for a string: the member whose value is [v], else what
    [_missing_] returns, and [ValueError] when that is [None]. *)
Definition call (v : string) : result Mode :=
  match find (fun member => (value member =? v)%string) members with
  | Some member => OK member
  | None =>
      match missing v with
      | Some member => OK member
      | None => Raise ValueError
      end
  end.

(** Lines 85-87 of [__init__]: a string is converted, a member is kept. *)
Definition init_heatmap_mode (heatmap_mode : string + Mode) : result Mode :=
  match heatmap_mode with
  | inl v => call v
  | inr member => OK member
  end.

(** A spelling of a mode name as configuration files have it. *)
Definition mixed_case_keypoint : string := "KeyPoint".

End enum.

(** ** The update rules (lines 231-278) *)

(** [x <= y] as the boolean numpy computes. *)
Definition Rleb (x y : R) : bool := if Rle_dec x y then true else false.

(** A keypoint as [update] receives it: [(row, col)]. *)
Definition Keypoint : Type := (R * R)%type.

(** The buffers that [update] mutates: the heatmap of one channel, of shape
    [(height, width)], and the location refinement map and mask of that
    channel, of shape [(height, width, 2)], or [None]. *)
Record views : Type := Views {
  v_heatmap : ndarray R;
  v_locref_map : option (ndarray R);
  v_locref_mask : option (ndarray Z)
}.

Section Update.

Variable self : HeatmapGenerator.
Variable grid : ndarray Z.
Variable keypoint : Keypoint.

(** [(grid - keypoint)[i, j, 0]] and [(grid - keypoint)[i, j, 1]]. *)
Definition diff0 (i j : nat) : R := (IZR (item grid [i; j; 0%nat]) - fst keypoint)%R.
Definition diff1 (i j : nat) : R := (IZR (item grid [i; j; 1%nat]) - snd keypoint)%R.

(** [np.linalg.norm(grid - keypoint, axis=2) ** 2] at cell [(i, j)]. *)
Definition gaussian_dist (i j : nat) : R :=
  (sqrt (diff0 i j * diff0 i j + diff1 i j * diff1 i j) ^ 2)%R.

(** [np.sum((grid - keypoint) ** 2, axis=2)] at cell [(i, j)]. *)
Definition plateau_dist (i j : nat) : R :=
  (diff0 i j ^ 2 + diff1 i j ^ 2)%R.

(** [keypoint[1] - grid.copy()[:, :, 1]] and
    [keypoint[0] - grid.copy()[:, :, 0]]. *)
Definition dx (i j : nat) : R := (snd keypoint - IZR (item grid [i; j; 1%nat]))%R.
Definition dy (i j : nat) : R := (fst keypoint - IZR (item grid [i; j; 0%nat]))%R.

(** [np.exp(-dist / (2 * self.std ** 2))] at cell [(i, j)]. *)
Definition heatmap_j (i j : nat) : R :=
  exp (- gaussian_dist i j / (2 * std self ^ 2))%R.

(** [HeatmapGaussianGenerator.update].  The test [if locref_mask:] takes
    the truth value of the array. *)
Definition gaussian_update (heatmap : ndarray R)
    (locref_map : option (ndarray R)) (locref_mask : option (ndarray Z))
  : views * option exn :=
  let heatmap :=
    NDArray (shape heatmap)
      (fun idx =>
         match idx with
         | [i; j] => Rmax (item heatmap idx) (heatmap_j i j)
         | _ => item heatmap idx
         end) in
  let locref_map :=
    match locref_map with
    | Some m =>
        Some (NDArray (shape m)
                (fun idx =>
                   match idx with
                   | [i; j; 0] => (dx i j * locref_scale self)%R
                   | [i; j; 1] => (dy i j * locref_scale self)%R
                   | _ => item m idx
                   end))
    | None => None
    end in
  match locref_mask with
  | None => (Views heatmap locref_map None, None)
  | Some m =>
      match truth_value m with
      | Raise e => (Views heatmap locref_map (Some m), Some e)
      | OK false => (Views heatmap locref_map (Some m), None)
      | OK true =>
          let m :=
            NDArray (shape m)
              (fun idx =>
                 match idx with
                 | [i; j; _] =>
                     if Rleb (gaussian_dist i j) (dist_thresh_sq self)
                     then 1%Z else item m idx
                 | _ => item m idx
                 end) in
          (Views heatmap locref_map (Some m), None)
      end
  end.

(** [mask = dist <= self.dist_thresh_sq] at cell [(i, j)]. *)
Definition plateau_mask (i j : nat) : bool :=
  Rleb (plateau_dist i j) (dist_thresh_sq self).

(** [HeatmapPlateauGenerator.update]. *)
Definition plateau_update (heatmap : ndarray R)
    (locref_map : option (ndarray R)) (locref_mask : option (ndarray Z))
  : views * option exn :=
  let heatmap :=
    NDArray (shape heatmap)
      (fun idx =>
         match idx with
         | [i; j] => if plateau_mask i j then 1%R else item heatmap idx
         | _ => item heatmap idx
         end) in
  let locref_map :=
    match locref_map with
    | Some m =>
        Some (NDArray (shape m)
                (fun idx =>
                   match idx with
                   | [i; j; 0] =>
                       if plateau_mask i j
                       then (dx i j * locref_scale self)%R else item m idx
                   | [i; j; 1] =>
                       if plateau_mask i j
                       then (dy i j * locref_scale self)%R else item m idx
                   | _ => item m idx
                   end))
    | None => None
    end in
  let locref_mask :=
    match locref_mask with
    | Some m =>
        Some (NDArray (shape m)
                (fun idx =>
                   match idx with
                   | [i; j; _] => if plateau_mask i j then 1%Z else item m idx
                   | _ => item m idx
                   end))
    | None => None
    end in
  (Views heatmap locref_map locref_mask, None).

(** [self.update(...)], dispatched on the class of [self].  The slices have
    the height and width of the grid, as [forward] builds them. *)
Definition update (heatmap : ndarray R)
    (locref_map : option (ndarray R)) (locref_mask : option (ndarray Z))
  : views * option exn :=
  match kernel self with
  | Gaussian => gaussian_update heatmap locref_map locref_mask
  | Plateau => plateau_update heatmap locref_map locref_mask
  end.

End Update.

(** *** Notions used to state the properties of the update rules *)

(** Squared Euclidean distance between the centre that [grid] holds for cell
    [(i, j)] and the keypoint. *)
Definition sq_distance (grid : ndarray Z) (keypoint : Keypoint) (i j : nat) : R :=
  ((IZR (item grid [i; j; 0%nat]) - fst keypoint) ^ 2
   + (IZR (item grid [i; j; 1%nat]) - snd keypoint) ^ 2)%R.


(** The Gaussian response at squared distance [d]. *)
Definition response (self : HeatmapGenerator) (d : R) : R :=
  exp (- d / (2 * (2 * dist_thresh self / 3) ^ 2))%R.

(** The value that [update] leaves in cell [(i, j)] of a heatmap view that
    held [v]. *)
Definition merge (self : HeatmapGenerator) (grid : ndarray Z)
    (keypoint : Keypoint) (v : R) (i j : nat) : R :=
  match kernel self with
  | Gaussian => Rmax v (heatmap_j self grid keypoint i j)
  | Plateau => if plateau_mask self grid keypoint i j then 1%R else v
  end.

(** The heatmap view of one channel after one call of [update] per keypoint,
    in order: what the loop over the subjects of a channel does to it. *)
Definition update_all (self : HeatmapGenerator) (grid : ndarray Z)
    (locref_map : option (ndarray R)) (locref_mask : option (ndarray Z))
    (keypoints : list Keypoint) (heatmap : ndarray R) : ndarray R :=
  fold_left
    (fun hm keypoint =>
       v_heatmap (fst (update self grid keypoint hm locref_map locref_mask)))
    keypoints heatmap.

(** ** forward (lines 92-200) *)

(** [inputs.shape], of which the channel count is not used. *)
Record Inputs : Type := {
  batch_size : nat;
  input_h : nat;
  input_w : nat
}.

(** What [forward] reads of [outputs]: the last two axes of
    [outputs["heatmap"].shape], and whether the key ["locref"] is present. *)
Record Outputs : Type := {
  height : nat;
  width : nat;
  has_locref : bool
}.

(** The buffers that [forward] allocates and fills. *)
Record buffers : Type := Buffers {
  heatmap : ndarray R;
  locref_map : option (ndarray R);
  locref_mask : option (ndarray Z)
}.

(** The returned dictionary: [target["heatmap"]["target"]] and, when present,
    [target["locref"]["target"]] and [target["locref"]["weights"]]. *)
Record Target : Type := {
  heatmap_target : ndarray R;
  locref : option (ndarray R * ndarray Z)
}.

(** Lines 128-134: the keypoints of a single animal get an individual axis,
    and in KEYPOINT mode the individual and keypoint axes are exchanged. *)
Definition normalize_coords (self : HeatmapGenerator) (batch_size : nat)
    (coords : ndarray R) : result (ndarray R) :=
  coords <-
    (if length (shape coords) =? 3
     then reshape (batch_size :: 1 :: tl (shape coords)) coords
     else OK coords) ;;
  match heatmap_mode self with
  | KEYPOINT => transpose [0; 2; 1; 3] coords
  | INDIVIDUAL => OK coords
  end.

(** Lines 136-143. *)
Definition allocate (self : HeatmapGenerator) (batch_size height width : nat)
  : buffers :=
  let heatmap := zeros 0%R [batch_size; height; width; num_heatmaps self] in
  if generate_locref self then
    let locref_map :=
      zeros 0%R [batch_size; height; width; num_heatmaps self * 2] in
    Buffers heatmap (Some locref_map) (Some (zeros 0%Z (shape locref_map)))
  else Buffers heatmap None None.

(** [keypoint.copy()[::-1]] on a vector of two coordinates. *)
Definition reversed (keypoint : R * R) : Keypoint :=
  (snd keypoint, fst keypoint).

(** [np.any(keypoint <= 0.0)]. *)
Definition any_nonpositive (keypoint : Keypoint) : bool :=
  Rleb (fst keypoint) 0 || Rleb (snd keypoint) 0.

(** [get_locref] (lines 181-200). *)
Definition get_locref {A : Type} (self : HeatmapGenerator)
    (locref_map_or_mask : option (ndarray A)) (batch_idx heatmap_idx : nat)
  : result (option (ndarray A)) :=
  if negb (generate_locref self) then OK None
  else
    let start_idx := 2 * heatmap_idx in
    let end_idx := start_idx + 2 in
    match locref_map_or_mask with
    | None => Raise TypeError
    | Some a =>
        v <- take_slice a batch_idx start_idx end_idx ;;
        OK (Some v)
    end.

(** What a location refinement buffer holds once [update] has mutated the
    view taken at [(b, heatmap_idx)]; nothing when there is no buffer. *)
Definition put_locref {A : Type} (a : option (ndarray A)) (b heatmap_idx : nat)
    (v : option (ndarray A)) : option (ndarray A) :=
  match a, v with
  | Some a, Some v => Some (put_slice a b (2 * heatmap_idx) (2 * heatmap_idx + 2) v)
  | _, _ => a
  end.

(** What the buffers hold once [update] has mutated the views taken at
    [(b, heatmap_idx)]. *)
Definition store (st : buffers) (b heatmap_idx : nat) (v : views) : buffers :=
  Buffers (put_channel (heatmap st) b heatmap_idx (v_heatmap v))
    (put_locref (locref_map st) b heatmap_idx (v_locref_map v))
    (put_locref (locref_mask st) b heatmap_idx (v_locref_mask v)).

(** The keypoint of subject [s] in channel [heatmap_idx] of batch element
    [b], reversed as on line 152. *)
Definition keypoint_at (coords : ndarray R) (b heatmap_idx s : nat) : Keypoint :=
  reversed (item coords [b; heatmap_idx; s; 0],
            item coords [b; heatmap_idx; s; 1]).

(** The body of the innermost loop (lines 152-162) for the keypoint
    [coords[b][heatmap_idx][s]]. *)
Definition visit (self : HeatmapGenerator) (grid : ndarray Z)
    (coords : ndarray R) (b heatmap_idx s : nat) (st : buffers)
  : buffers * option exn :=
  let keypoint := keypoint_at coords b heatmap_idx s in
  if any_nonpositive keypoint then (st, None)
  else
    match take_channel (heatmap st) b heatmap_idx with
    | Raise e => (st, Some e)
    | OK hm =>
        match get_locref self (locref_map st) b heatmap_idx with
        | Raise e => (st, Some e)
        | OK lm =>
            match get_locref self (locref_mask st) b heatmap_idx with
            | Raise e => (st, Some e)
            | OK lk =>
                let r := update self grid keypoint hm lm lk in
                (store st b heatmap_idx (fst r), snd r)
            end
        end
    end.

(** A [for] loop over the indices [l] whose body may raise: the loop stops
    at the first exception. *)
Fixpoint for_each {S : Type} (l : list nat)
    (body : nat -> S -> S * option exn) (st : S) : S * option exn :=
  match l with
  | [] => (st, None)
  | k :: l' =>
      match body k st with
      | (st', None) => for_each l' body st'
      | (st', Some e) => (st', Some e)
      end
  end.

(** [for k in range(n)]. *)
Definition for_range {S : Type} (n : nat)
    (body : nat -> S -> S * option exn) (st : S) : S * option exn :=
  for_each (seq 0 n) body st.

(** The three nested loops of lines 149-162.  [coords[b]] raises
    [IndexError] when the batch axis of [coords] is too short. *)
Definition rasterize (self : HeatmapGenerator) (grid : ndarray Z)
    (coords : ndarray R) (batch_size : nat) (st : buffers)
  : buffers * option exn :=
  for_range batch_size
    (fun b st =>
       if b <? nth 0 (shape coords) 0 then
         for_range (nth 1 (shape coords) 0)
           (fun heatmap_idx st =>
              for_range (nth 2 (shape coords) 0)
                (fun s st => visit self grid coords b heatmap_idx s st) st)
           st
       else (st, Some IndexError))
    st.

(** Lines 164-179. *)
Definition assemble (self : HeatmapGenerator) (outputs : Outputs)
    (st : buffers) : result Target :=
  heatmap <- transpose [0; 3; 1; 2] (heatmap st) ;;
  if generate_locref self then
    match locref_map st, locref_mask st with
    | Some locref_map, Some locref_mask =>
        locref_map <- transpose [0; 3; 1; 2] locref_map ;;
        locref_mask <- transpose [0; 3; 1; 2] locref_mask ;;
        if has_locref outputs
        then OK {| heatmap_target := heatmap;
                   locref := Some (locref_map, locref_mask) |}
        else Raise KeyError
    | _, _ => Raise TypeError
    end
  else OK {| heatmap_target := heatmap; locref := None |}.

(** Lines 125-162 of [forward]: the buffers once every keypoint has been
    rasterized, where [coords] is [labels[self.label_keypoint_key]]. *)
Definition fill_buffers (self : HeatmapGenerator) (inputs : Inputs)
    (outputs : Outputs) (coords : ndarray R) : result buffers :=
  stride_y <- true_div (input_h inputs) (height outputs) ;;
  stride_x <- true_div (input_w inputs) (width outputs) ;;
  coords <- normalize_coords self (batch_size inputs) coords ;;
  let st :=
    allocate self (batch_size inputs) (height outputs) (width outputs) in
  grid <- build_grid (height outputs) (width outputs) stride_y stride_x ;;
  match rasterize self grid coords (batch_size inputs) st with
  | (_, Some e) => Raise e
  | (st, None) => OK st
  end.

(** [forward]. *)
Definition forward (self : HeatmapGenerator) (inputs : Inputs)
    (outputs : Outputs) (coords : ndarray R) : result Target :=
  st <- fill_buffers self inputs outputs coords ;;
  assemble self outputs st.

(** *** Notions used to state the properties of [forward] *)

(** The keypoints of channel [heatmap_idx] of batch element [b] that pass the
    test of line 153, in the order of the loop over the [n] subjects. *)
Definition valid_keypoints (coords : ndarray R) (b heatmap_idx n : nat)
  : list Keypoint :=
  filter (fun kp => negb (any_nonpositive kp))
    (map (keypoint_at coords b heatmap_idx) (seq 0 n)).

(** The cell [(b, i, j, c)] of a rank-4 buffer. *)
Definition cell (a : ndarray R) (key : nat * nat * nat * nat) : R :=
  let '(b, i, j, c) := key in item a [b; i; j; c].

(** The value that the iteration for subject [s] of channel [heatmap_idx] of
    batch element [b] leaves in the heatmap cell [key = (b', i, j, c')] that
    held [v], when the iteration raises nothing. *)
Definition visit_value (self : HeatmapGenerator) (grid : ndarray Z)
    (coords : ndarray R) (b heatmap_idx s : nat)
    (key : nat * nat * nat * nat) (v : R) : R :=
  let '(b', i, j, c') := key in
  if (b' =? b) && (c' =? heatmap_idx) then
    if any_nonpositive (keypoint_at coords b heatmap_idx s) then v
    else merge self grid (keypoint_at coords b heatmap_idx s) v i j
  else v.

(** The configurations in which the test [if locref_mask:] of the Gaussian
    rule is never reached with an array. *)
Definition completes (self : HeatmapGenerator) : Prop :=
  kernel self = Plateau \/ generate_locref self = false.

(** The shapes of the buffers that [forward] allocates. *)
Definition wf_buffers (self : HeatmapGenerator) (nb h w : nat) (st : buffers)
  : Prop :=
  shape (heatmap st) = [nb; h; w; num_heatmaps self]
  /\ if generate_locref self then
       exists lm lk,
         locref_map st = Some lm /\ locref_mask st = Some lk
         /\ shape lm = [nb; h; w; num_heatmaps self * 2]
         /\ shape lk = [nb; h; w; num_heatmaps self * 2]
     else locref_map st = None /\ locref_mask st = None.

(** Every cell of an array lies between 0 and 1. *)
Definition unit_valued (a : ndarray R) : Prop :=
  forall idx, (0 <= item a idx <= 1)%R.

(** Configurations used as examples. *)
Definition gaussian_no_locref : HeatmapGenerator :=
  {| kernel := Gaussian; num_heatmaps := 2; pos_dist_thresh := 3;
     heatmap_mode := KEYPOINT; generate_locref := false;
     locref_std := 7.2801%R |}.

Definition gaussian_with_locref : HeatmapGenerator :=
  {| kernel := Gaussian; num_heatmaps := 2; pos_dist_thresh := 3;
     heatmap_mode := KEYPOINT; generate_locref := true;
     locref_std := 7.2801%R |}.

Definition plateau_with_locref : HeatmapGenerator :=
  {| kernel := Plateau; num_heatmaps := 2; pos_dist_thresh := 2;
     heatmap_mode := KEYPOINT; generate_locref := true;
     locref_std := 7.2801%R |}.

(** One image of 8 x 8 pixels, a feature map of 4 x 4 cells, one subject
    and two keypoint types: the first at pixel (3, 3), the second absent. *)
Definition scenario_inputs : Inputs :=
  {| batch_size := 1; input_h := 8; input_w := 8 |}.

Definition scenario_outputs : Outputs :=
  {| height := 4; width := 4; has_locref := true |}.

Definition scenario_coords : ndarray R :=
  NDArray [1; 1; 2; 2]
    (fun idx =>
       match idx with
       | [_; _; 0; _] => 3%R
       | _ => (-1)%R
       end).

(** The labels of subject [s] alone: [coords[:, s:s+1]] for labels of
    rank 4. *)
Definition only_subject (coords : ndarray R) (s : nat) : ndarray R :=
  NDArray
    (match shape coords with
     | [nb; _; nk; d] => [nb; 1; nk; d]
     | sh => sh
     end)
    (fun idx =>
       match idx with
       | [b; _; k; x] => item coords [b; s; k; x]
       | _ => item coords idx
       end).

(** The labels of one image with one subject and one keypoint type, whose
    keypoint has [x = 0]. *)
Definition absent_coords : ndarray R :=
  NDArray [1; 1; 1; 2]
    (fun idx =>
       match idx with
       | [_; _; _; 0] => 0%R
       | _ => 5%R
       end).

(** The grid of an 8 x 8 input and a 4 x 4 feature map: strides 2, centres
    1, 3, 5, 7. *)
Definition scenario_grid : ndarray Z :=
  match (stride <- true_div 8 4 ;; build_grid 4 4 stride stride) with
  | OK grid => grid
  | Raise _ => zeros 0%Z []
  end.

(** ** Further notions used in the properties *)

(** Labels of coordinate pairs: rank 3, [(batch, keypoints, 2)], or rank 4,
    [(batch, subjects, keypoints, 2)]. *)
Definition coordinate_pairs (coords : ndarray R) : Prop :=
  match shape coords with
  | [_; _; d] => d = 2
  | [_; _; _; d] => d = 2
  | _ => False
  end.

(** Labels of coordinate pairs whose shape fits the batch and the channels
    of the generator: rank 3, [(batch_size, keypoints, 2)], or rank 4,
    [(batch, subjects, keypoints, 2)] with at least [batch_size] batch
    elements; the axis that [forward] iterates as channels (the keypoints in
    KEYPOINT mode, the subjects in INDIVIDUAL mode) has at most
    [num_heatmaps] entries. *)
Definition well_shaped (self : HeatmapGenerator) (batch_size : nat)
    (coords : ndarray R) : Prop :=
  match shape coords with
  | [nb; nk; d] =>
      d = 2
      /\ nb = batch_size
      /\ match heatmap_mode self with
         | KEYPOINT => nk
         | INDIVIDUAL => 1
         end <= num_heatmaps self
  | [nb; ns; nk; d] =>
      d = 2
      /\ batch_size <= nb
      /\ match heatmap_mode self with
         | KEYPOINT => nk
         | INDIVIDUAL => ns
         end <= num_heatmaps self
  | _ => False
  end.

(** The cell [idx] of a buffer that may be [None]. *)
Definition option_item {A : Type} (a : option (ndarray A)) (idx : list nat)
  : option A :=
  match a with
  | Some a => Some (item a idx)
  | None => None
  end.

(** Labels of one image, one subject and three keypoint types, all at
    pixel (3, 3). *)
Definition three_keypoints : ndarray R :=
  NDArray [1; 1; 3; 2] (fun _ => 3%R).







(** ** The float32 heatmap buffer (line 136) *)

(** [heatmap] is allocated with [dtype=np.float32]: a value assigned to it
    is rounded to the nearest binary32 number, ties to even.  The update
    rules are stated over real numbers above; [float32.round] gives the
    value that a cell of the buffer holds for a real value assigned to it.
    Overflow to [inf] is left out (the values of a heatmap are at most 1),
    and the float64 operations that produce the assigned value are taken as
    exact. *)
Module float32.







End float32.


(** * Properties *)

(** ** Arrays *)

Lemma size_cons (n : nat) (sh : list nat) : size (n :: sh) = n * size sh.
Proof. reflexivity. Qed.

Lemma ravel_lt (sh idx : list nat) :
  in_bounds idx sh -> ravel sh idx < size sh.
Proof.
  intros H; induction H as [|i n idx sh Hi _ IH]; simpl.
  - lia.
  - nia.
Qed.

Lemma unravel_ravel (sh idx : list nat) :
  in_bounds idx sh -> unravel sh (ravel sh idx) = idx.
Proof.
  intros H; induction H as [|i n idx sh Hi Hb IH]; simpl; [reflexivity|].
  pose proof (ravel_lt Hb) as Hlt.
  assert (Hpos : size sh <> 0) by lia.
  f_equal.
  - rewrite Nat.div_add_l by exact Hpos.
    rewrite Nat.div_small by exact Hlt. lia.
  - rewrite Nat.add_comm, Nat.Div0.mod_add.
    rewrite Nat.mod_small by exact Hlt. exact IH.
Qed.

(** Reshaping to the same shape with an axis of extent one inserted after
    the first axis keeps every element at its index. *)
Lemma reshape_insert_axis (A : Type) (a : ndarray A) (n : nat) (sh : list nat) :
  shape a = n :: sh ->
  exists a',
    reshape (n :: 1 :: sh) a = OK a'
    /\ shape a' = n :: 1 :: sh
    /\ forall b idx, in_bounds (b :: idx) (n :: sh) ->
         item a' (b :: 0 :: idx) = item a (b :: idx).
Proof.
  intros Hsh. unfold reshape. rewrite Hsh.
  replace (size (n :: 1 :: sh) =? size (n :: sh)) with true
    by (symmetry; apply Nat.eqb_eq; simpl; lia).
  eexists; split; [reflexivity|]. split; [reflexivity|].
  intros b idx Hb.
  change (item a (unravel (n :: sh) (ravel (n :: 1 :: sh) (b :: 0 :: idx)))
          = item a (b :: idx)).
  replace (ravel (n :: 1 :: sh) (b :: 0 :: idx)) with (ravel (n :: sh) (b :: idx))
    by (simpl; lia).
  rewrite (unravel_ravel Hb). reflexivity.
Qed.

Lemma transpose_0312 (A : Type) (a : ndarray A) (nb h w nc : nat) :
  shape a = [nb; h; w; nc] ->
  exists a',
    transpose [0; 3; 1; 2] a = OK a'
    /\ shape a' = [nb; nc; h; w]
    /\ (forall b c i j, item a' [b; c; i; j] = item a [b; i; j; c])
    /\ (forall idx, exists idx', item a' idx = item a idx').
Proof.
  intros Hsh. unfold transpose. rewrite Hsh. simpl.
  eexists; split; [reflexivity|]. repeat split.
  intros idx. eexists. reflexivity.
Qed.

Lemma transpose_0213 (A : Type) (a : ndarray A) (nb n1 n2 d : nat) :
  shape a = [nb; n1; n2; d] ->
  exists a',
    transpose [0; 2; 1; 3] a = OK a'
    /\ shape a' = [nb; n2; n1; d]
    /\ forall b k s x, item a' [b; k; s; x] = item a [b; s; k; x].
Proof.
  intros Hsh. unfold transpose. rewrite Hsh. simpl.
  eexists; split; [reflexivity|]. repeat split.
Qed.

(** ** The grid *)

Lemma build_grid_item (h w : nat) (stride_y stride_x : Q) :
  exists grid,
    build_grid h w stride_y stride_x = OK grid
    /\ shape grid = [h; w; 2]
    /\ forall i j,
         item grid [i; j; 0]
         = astype_int (inject_Z (Z.of_nat i) * stride_y + stride_y / inject_Z 2)%Q
         /\ item grid [i; j; 1]
            = astype_int (inject_Z (Z.of_nat j) * stride_x + stride_x / inject_Z 2)%Q.
Proof.
  unfold build_grid, transpose. simpl.
  eexists; split; [reflexivity|]. split; [reflexivity|].
  intros i j. split; reflexivity.
Qed.

Lemma astype_int_inject_Z (q : Q) (z : Z) : (q == inject_Z z)%Q -> astype_int q = z.
Proof.
  unfold Qeq, astype_int. simpl. intros H.
  rewrite Z.mul_1_r in H. rewrite H.
  apply Z.quot_mul. discriminate.
Qed.

(** Where the stride is an even integer (the usual strides 2, 4, 8, 16, 32)
    the centres are integers and the grid holds them exactly. *)
Lemma build_grid_even_stride (h w : nat) (ky kx : Z) :
  exists grid,
    build_grid h w (inject_Z (2 * ky)) (inject_Z (2 * kx)) = OK grid
    /\ forall i j,
         item grid [i; j; 0] = (Z.of_nat i * (2 * ky) + ky)%Z
         /\ item grid [i; j; 1] = (Z.of_nat j * (2 * kx) + kx)%Z.
Proof.
  destruct (build_grid_item h w (inject_Z (2 * ky)) (inject_Z (2 * kx)))
    as (grid & Hg & _ & Hitem).
  exists grid; split; [exact Hg|].
  intros i j. destruct (Hitem i j) as [H0 H1]. rewrite H0, H1.
  split; apply astype_int_inject_Z;
    unfold Qeq, Qdiv, Qmult, Qplus, inject_Z;
    cbn [Qnum Qden Qinv Pos.mul]; ring.
Qed.

(** C2, at the failing input.  For a 12 x 12 input and a 4 x 4 feature map
    the strides are 3 and the centre of cell (0, 0) is (3/2, 3/2); the grid,
    an integer array, holds (1, 1). *)
Theorem build_grid_drops_half_stride :
  exists grid,
    (stride_y <- true_div 12 4 ;;
     stride_x <- true_div 12 4 ;;
     build_grid 4 4 stride_y stride_x) = OK grid
    /\ item grid [0; 0; 0] = 1%Z
    /\ item grid [0; 0; 1] = 1%Z
    /\ ~ Qeq (inject_Z (item grid [0; 0; 0]))
             (inject_Z 0 * (12 # 4) + (12 # 4) / inject_Z 2)%Q.
Proof.
  eexists. split; [reflexivity|]. repeat split.
  vm_compute. discriminate.
Qed.

(** ** The update rules *)

Lemma Rleb_true_iff (x y : R) : Rleb x y = true <-> (x <= y)%R.
Proof.
  unfold Rleb. destruct (Rle_dec x y); split; intros; try assumption;
    try reflexivity; try discriminate; contradiction.
Qed.

Lemma Rleb_false_iff (x y : R) : Rleb x y = false <-> (y < x)%R.
Proof.
  unfold Rleb. destruct (Rle_dec x y); split; intros; try reflexivity;
    try discriminate; lra.
Qed.

Lemma sq_distance_nonneg (grid : ndarray Z) (kp : Keypoint) (i j : nat) :
  (0 <= sq_distance grid kp i j)%R.
Proof.
  unfold sq_distance. apply Rplus_le_le_0_compat; apply pow2_ge_0.
Qed.


(** Squaring the norm gives back the sum of squares. *)
Lemma gaussian_dist_eq (grid : ndarray Z) (kp : Keypoint) (i j : nat) :
  gaussian_dist grid kp i j = sq_distance grid kp i j.
Proof.
  unfold gaussian_dist. rewrite pow2_sqrt.
  - unfold sq_distance, diff0, diff1. ring.
  - apply Rplus_le_le_0_compat; apply Rle_0_sqr.
Qed.

Lemma heatmap_j_eq (self : HeatmapGenerator) (grid : ndarray Z)
    (kp : Keypoint) (i j : nat) :
  heatmap_j self grid kp i j = response self (sq_distance grid kp i j).
Proof.
  unfold heatmap_j, response, std. rewrite gaussian_dist_eq. reflexivity.
Qed.

Lemma response_pos (self : HeatmapGenerator) (d : R) : (0 < response self d)%R.
Proof. apply exp_pos. Qed.

Lemma exp_nonpos_le_1 (x : R) : (x <= 0)%R -> (exp x <= 1)%R.
Proof.
  intros [Hlt | Heq].
  - left. rewrite <- exp_0. apply exp_increasing. exact Hlt.
  - subst. rewrite exp_0. lra.
Qed.

Lemma response_le_1 (self : HeatmapGenerator) (d : R) :
  (0 <= d)%R -> (response self d <= 1)%R.
Proof.
  intros Hd. unfold response. apply exp_nonpos_le_1.
  set (s := (2 * (2 * dist_thresh self / 3) ^ 2)%R).
  assert (Hs : (0 <= s)%R) by (unfold s; nra).
  unfold Rdiv. destruct Hs as [Hs | Hs].
  - assert (0 < / s)%R by (apply Rinv_0_lt_compat; exact Hs). nra.
  - rewrite <- Hs, Rinv_0. lra.
Qed.


(** What [update] leaves in one cell of the heatmap view. *)
Lemma update_heatmap_item (self : HeatmapGenerator) (grid : ndarray Z)
    (kp : Keypoint) (hm : ndarray R) (lm : option (ndarray R))
    (lk : option (ndarray Z)) (i j : nat) :
  item (v_heatmap (fst (update self grid kp hm lm lk))) [i; j]
  = merge self grid kp (item hm [i; j]) i j.
Proof.
  unfold update, merge. destruct (kernel self).
  - unfold gaussian_update. destruct lk as [m|]; [|reflexivity].
    destruct (truth_value m) as [[|]|]; reflexivity.
  - reflexivity.
Qed.

Lemma update_heatmap_other (self : HeatmapGenerator) (grid : ndarray Z)
    (kp : Keypoint) (hm : ndarray R) (lm : option (ndarray R))
    (lk : option (ndarray Z)) (idx : list nat) :
  length idx <> 2 ->
  item (v_heatmap (fst (update self grid kp hm lm lk))) idx = item hm idx.
Proof.
  intros Hlen.
  destruct idx as [|i [|j [|k idx]]]; try (exfalso; apply Hlen; reflexivity).
  all: unfold update; destruct (kernel self);
    [ unfold gaussian_update; destruct lk as [m|]; [|reflexivity];
      destruct (truth_value m) as [[|]|]; reflexivity
    | reflexivity ].
Qed.

Lemma update_heatmap_cases (self : HeatmapGenerator) (grid : ndarray Z)
    (kp : Keypoint) (hm : ndarray R) (lm : option (ndarray R))
    (lk : option (ndarray Z)) (idx : list nat) :
  item (v_heatmap (fst (update self grid kp hm lm lk))) idx = item hm idx
  \/ exists i j,
       item (v_heatmap (fst (update self grid kp hm lm lk))) idx
       = merge self grid kp (item hm idx) i j.
Proof.
  destruct idx as [|i [|j [|k idx]]].
  1, 2, 4: left; unfold update; destruct (kernel self);
    [ unfold gaussian_update; destruct lk as [m|]; [|reflexivity];
      destruct (truth_value m) as [[|]|]; reflexivity
    | reflexivity ].
  right. exists i, j. apply update_heatmap_item.
Qed.

Lemma update_heatmap_shape (self : HeatmapGenerator) (grid : ndarray Z)
    (kp : Keypoint) (hm : ndarray R) (lm : option (ndarray R))
    (lk : option (ndarray Z)) :
  shape (v_heatmap (fst (update self grid kp hm lm lk))) = shape hm.
Proof.
  unfold update. destruct (kernel self).
  - unfold gaussian_update. destruct lk as [m|]; [|reflexivity].
    destruct (truth_value m) as [[|]|]; reflexivity.
  - reflexivity.
Qed.

Lemma merge_bounds (self : HeatmapGenerator) (grid : ndarray Z)
    (kp : Keypoint) (v : R) (i j : nat) :
  (0 <= v <= 1)%R -> (0 <= merge self grid kp v i j <= 1)%R.
Proof.
  intros Hv. unfold merge. destruct (kernel self).
  - rewrite heatmap_j_eq.
    pose proof (response_pos self (sq_distance grid kp i j)).
    pose proof (response_le_1 self (sq_distance_nonneg grid kp i j)).
    unfold Rmax. destruct (Rle_dec _ _); lra.
  - destruct (plateau_mask self grid kp i j); lra.
Qed.

Lemma merge_increases (self : HeatmapGenerator) (grid : ndarray Z)
    (kp : Keypoint) (v : R) (i j : nat) :
  (v <= 1)%R -> (v <= merge self grid kp v i j)%R.
Proof.
  intros Hv. unfold merge. destruct (kernel self).
  - apply Rmax_l.
  - destruct (plateau_mask self grid kp i j); lra.
Qed.

(** Merging into a cell that holds zero and merging the result with another
    keypoint is the maximum of the two separate merges. *)
Lemma merge_merge (self : HeatmapGenerator) (grid : ndarray Z)
    (k1 k2 : Keypoint) (i j : nat) :
  merge self grid k2 (merge self grid k1 0 i j) i j
  = Rmax (merge self grid k1 0 i j) (merge self grid k2 0 i j).
Proof.
  unfold merge. destruct (kernel self).
  - rewrite !heatmap_j_eq.
    pose proof (response_pos self (sq_distance grid k1 i j)).
    pose proof (response_pos self (sq_distance grid k2 i j)).
    unfold Rmax. repeat destruct (Rle_dec _ _); lra.
  - destruct (plateau_mask self grid k1 i j), (plateau_mask self grid k2 i j);
      unfold Rmax; destruct (Rle_dec _ _); lra.
Qed.

Lemma update_unit_valued (self : HeatmapGenerator) (grid : ndarray Z)
    (kp : Keypoint) (hm : ndarray R) (lm : option (ndarray R))
    (lk : option (ndarray Z)) :
  unit_valued hm ->
  unit_valued (v_heatmap (fst (update self grid kp hm lm lk))).
Proof.
  intros Hhm idx.
  destruct (update_heatmap_cases self grid kp hm lm lk idx) as [H | (i & j & H)];
    rewrite H; [apply Hhm | apply merge_bounds, Hhm].
Qed.

Lemma update_all_unit_valued (self : HeatmapGenerator) (grid : ndarray Z)
    (lm : option (ndarray R)) (lk : option (ndarray Z))
    (keypoints : list Keypoint) (hm : ndarray R) :
  unit_valued hm -> unit_valued (update_all self grid lm lk keypoints hm).
Proof.
  revert hm. induction keypoints as [|kp ks IH]; intros hm Hhm; simpl.
  - exact Hhm.
  - apply IH, update_unit_valued, Hhm.
Qed.

Lemma zeros_unit_valued (sh : list nat) : unit_valued (zeros 0%R sh).
Proof. intros idx. simpl. lra. Qed.

(** ** Rounding to float32 *)



























(** C4.  After the calls of [update] for two keypoints on the zero heatmap
    of a channel, every cell holds the maximum of what either call alone
    leaves there; and an additional call never lowers a cell of a heatmap
    built from zero. *)
Theorem heatmap_max_merge (self : HeatmapGenerator) (grid : ndarray Z)
    (lm : option (ndarray R)) (lk : option (ndarray Z)) (h w : nat)
    (k1 k2 : Keypoint) (idx : list nat) :
  let rasterized ks := update_all self grid lm lk ks (zeros 0%R [h; w]) in
  item (rasterized [k1; k2]) idx
  = Rmax (item (rasterized [k1]) idx) (item (rasterized [k2]) idx)
  /\ forall ks k,
       (item (rasterized ks) idx <= item (rasterized (ks ++ [k])) idx)%R.
Proof.
  intros rasterized. split.
  - unfold rasterized, update_all. simpl fold_left.
    destruct (Nat.eq_dec (length idx) 2) as [Hlen | Hlen].
    + destruct idx as [|i [|j [|k idx]]]; try discriminate Hlen.
      rewrite !update_heatmap_item.
      change (item (zeros 0%R [h; w]) [i; j]) with 0%R.
      apply merge_merge.
    + rewrite !update_heatmap_other by exact Hlen.
      simpl. unfold Rmax. destruct (Rle_dec _ _); reflexivity.
  - intros ks k. unfold rasterized, update_all.
    rewrite fold_left_app. simpl fold_left.
    fold (update_all self grid lm lk ks (zeros 0%R [h; w])).
    pose proof (@update_all_unit_valued self grid lm lk ks _
                  (zeros_unit_valued [h; w])) as Hu.
    destruct (update_heatmap_cases self grid k
                (update_all self grid lm lk ks (zeros 0%R [h; w])) lm lk idx)
      as [H | (i & j & H)]; rewrite H.
    + lra.
    + apply merge_increases. apply Hu.
Qed.


(** The test [if locref_mask:] of the Gaussian rule raises for every mask
    with more than one element, and the mask is left as it was. *)
Lemma gaussian_update_mask_raises (self : HeatmapGenerator) (grid : ndarray Z)
    (kp : Keypoint) (hm : ndarray R) (lm : option (ndarray R))
    (m : ndarray Z) :
  1 < size (shape m) ->
  snd (gaussian_update self grid kp hm lm (Some m)) = Some ValueError
  /\ v_locref_mask (fst (gaussian_update self grid kp hm lm (Some m))) = Some m.
Proof.
  intros Hsize. unfold gaussian_update, truth_value.
  destruct (size (shape m)) as [|[|n]]; try lia.
  split; reflexivity.
Qed.

(** ** Loops *)

Lemma for_each_invariant (S : Type) (P : S -> Prop) (l : list nat)
    (body : nat -> S -> S * option exn) :
  (forall k st, P st -> P (fst (body k st))) ->
  forall st, P st -> P (fst (for_each l body st)).
Proof.
  intros Hbody. induction l as [|k l IH]; intros st Hst; simpl.
  - exact Hst.
  - specialize (Hbody k st Hst).
    destruct (body k st) as [st' [e|]]; simpl in *.
    + exact Hbody.
    + apply IH. exact Hbody.
Qed.

(** A loop whose iterations all leave the state as it is. *)
Lemma for_each_skip (S : Type) (l : list nat)
    (body : nat -> S -> S * option exn) (st : S) :
  (forall k, In k l -> body k st = (st, None)) ->
  for_each l body st = (st, None).
Proof.
  induction l as [|k l IH]; intros Hbody; simpl.
  - reflexivity.
  - rewrite (Hbody k) by (left; reflexivity).
    apply IH. intros k' Hk'. apply Hbody. right. exact Hk'.
Qed.

(** A loop whose iterations complete and act on each observed cell by a
    function of the previous value of that cell. *)
Lemma for_each_fold (S K V : Type) (Inv : S -> Prop) (obs : S -> K -> V)
    (f : nat -> K -> V -> V) (l : list nat)
    (body : nat -> S -> S * option exn) :
  (forall k st, In k l -> Inv st ->
     exists st',
       body k st = (st', None) /\ Inv st'
       /\ forall key, obs st' key = f k key (obs st key)) ->
  forall st, Inv st ->
    exists st',
      for_each l body st = (st', None) /\ Inv st'
      /\ forall key,
           obs st' key = fold_left (fun v k => f k key v) l (obs st key).
Proof.
  induction l as [|k l IH]; intros Hbody st Hst; simpl.
  - exists st. repeat split. exact Hst.
  - destruct (Hbody k st (or_introl eq_refl) Hst) as (st1 & E1 & Inv1 & Obs1).
    rewrite E1.
    destruct (IH (fun k' st' Hk' => Hbody k' st' (or_intror Hk')) st1 Inv1)
      as (st2 & E2 & Inv2 & Obs2).
    exists st2. split; [exact E2|]. split; [exact Inv2|].
    intros key. rewrite Obs2, Obs1. reflexivity.
Qed.

(** A loop whose iterations complete or raise [e] completes or raises [e]. *)
Lemma for_each_outcomes (S : Type) (Inv : S -> Prop) (e : exn) (l : list nat)
    (body : nat -> S -> S * option exn) :
  (forall k st, In k l -> Inv st ->
     Inv (fst (body k st))
     /\ (snd (body k st) = None \/ snd (body k st) = Some e)) ->
  forall st, Inv st ->
    Inv (fst (for_each l body st))
    /\ (snd (for_each l body st) = None \/ snd (for_each l body st) = Some e).
Proof.
  induction l as [|k l IH]; intros Hbody st Hst; simpl.
  - split; [exact Hst | left; reflexivity].
  - destruct (Hbody k st (or_introl eq_refl) Hst) as [Hinv Hsnd].
    destruct (body k st) as [st' [e'|]]; simpl in *.
    + split; [exact Hinv|]. exact Hsnd.
    + apply IH; [|exact Hinv].
      intros k' st1 Hin. apply Hbody. right. exact Hin.
Qed.

(** A loop raises [e] when one of its iterations always does and the
    others complete or raise [e]. *)
Lemma for_each_raises (S : Type) (Inv : S -> Prop) (e : exn) (l : list nat)
    (body : nat -> S -> S * option exn) (k0 : nat) :
  In k0 l ->
  (forall k st, In k l -> Inv st ->
     Inv (fst (body k st))
     /\ (snd (body k st) = None \/ snd (body k st) = Some e)) ->
  (forall st, Inv st -> snd (body k0 st) = Some e) ->
  forall st, Inv st -> snd (for_each l body st) = Some e.
Proof.
  intros Hin Hbody Hk0. induction l as [|k l IH]; intros st Hst; simpl.
  - destruct Hin.
  - destruct (Hbody k st (or_introl eq_refl) Hst) as [Hinv Hsnd].
    destruct (Nat.eq_dec k k0) as [-> | Hne].
    + specialize (Hk0 st Hst). destruct (body k0 st) as [st' [e'|]];
        simpl in *; [exact Hk0 | discriminate].
    + destruct Hin as [Heq | Hin]; [contradiction|].
      destruct (body k st) as [st' [e'|]]; simpl in *.
      * destruct Hsnd as [Hsnd | Hsnd]; [discriminate | exact Hsnd].
      * apply IH; [exact Hin | | exact Hinv].
        intros k' st1 Hin'. apply Hbody. right. exact Hin'.
Qed.

(** A fold over distinct keys of functions that are the identity except at
    one key applies the function of that key, if it is met. *)
Lemma fold_left_single (V : Type) (f : nat -> V -> V) (l : list nat)
    (k0 : nat) (v : V) :
  NoDup l ->
  (forall k v', k <> k0 -> f k v' = v') ->
  fold_left (fun v' k => f k v') l v
  = if existsb (Nat.eqb k0) l then f k0 v else v.
Proof.
  intros Hnd Hid. revert v. induction Hnd as [|k l Hnotin Hnd IH]; intros v; simpl.
  - reflexivity.
  - destruct (Nat.eqb_spec k0 k) as [<- | Hne]; simpl.
    + clear IH. assert (Hrest : forall v', fold_left (fun v' k => f k v') l v' = v').
      { clear v. induction l as [|k l IHl]; intros v'; simpl; [reflexivity|].
        rewrite Hid.
        - apply IHl.
          + intros Hin. apply Hnotin. right. exact Hin.
          + inversion Hnd; assumption.
        - intros ->. apply Hnotin. left. reflexivity. }
      apply Hrest.
    + rewrite Hid by (intros ->; apply Hne; reflexivity). apply IH.
Qed.

Lemma existsb_eqb_seq (k n : nat) : existsb (Nat.eqb k) (seq 0 n) = (k <? n).
Proof.
  destruct (Nat.ltb_spec k n) as [Hlt | Hge].
  - apply existsb_exists. exists k. split.
    + apply in_seq. lia.
    + apply Nat.eqb_refl.
  - destruct (existsb (Nat.eqb k) (seq 0 n)) eqn:E; [|reflexivity].
    apply existsb_exists in E. destruct E as (x & Hin & Heq).
    apply Nat.eqb_eq in Heq. subst x. apply in_seq in Hin. lia.
Qed.

(** ** The loop body *)

Lemma take_channel_ok (A : Type) (a : ndarray A) (nb h w nc b c : nat) :
  shape a = [nb; h; w; nc] -> b < nb -> c < nc ->
  take_channel a b c = OK (NDArray [h; w] (fun idx => item a (b :: idx ++ [c]))).
Proof.
  intros Hsh Hb Hc. unfold take_channel. rewrite Hsh.
  apply Nat.ltb_lt in Hb, Hc. rewrite Hb, Hc. reflexivity.
Qed.

Lemma take_channel_item (A : Type) (a v : ndarray A) (b c : nat) :
  take_channel a b c = OK v ->
  forall idx, item v idx = item a (b :: idx ++ [c]).
Proof.
  unfold take_channel.
  destruct (shape a) as [|nb [|h [|w [|nc [|x sh]]]]]; try discriminate.
  destruct ((b <? nb) && (c <? nc)); [|discriminate].
  intros H idx. injection H as <-. reflexivity.
Qed.

Lemma get_locref_ok (A : Type) (self : HeatmapGenerator) (a : ndarray A)
    (nb h w nc b idx : nat) :
  generate_locref self = true ->
  shape a = [nb; h; w; nc] -> b < nb ->
  exists v,
    get_locref self (Some a) b idx = OK (Some v)
    /\ shape v = [h; w; Nat.min (2 * idx + 2) nc - Nat.min (2 * idx) nc].
Proof.
  intros Hg Hsh Hb. unfold get_locref, take_slice. rewrite Hg, Hsh.
  apply Nat.ltb_lt in Hb. rewrite Hb. simpl.
  eexists. split; reflexivity.
Qed.

Lemma get_locref_disabled (A : Type) (self : HeatmapGenerator)
    (a : option (ndarray A)) (b idx : nat) :
  generate_locref self = false -> get_locref self a b idx = OK None.
Proof. intros Hg. unfold get_locref. rewrite Hg. reflexivity. Qed.

Lemma visit_skip (self : HeatmapGenerator) (grid : ndarray Z)
    (coords : ndarray R) (b idx s : nat) (st : buffers) :
  any_nonpositive (keypoint_at coords b idx s) = true ->
  visit self grid coords b idx s st = (st, None).
Proof. intros H. unfold visit. rewrite H. reflexivity. Qed.

(** An iteration either leaves the buffers as they are, or stores what
    [update] made of the views of its channel. *)
Lemma visit_cases (self : HeatmapGenerator) (grid : ndarray Z)
    (coords : ndarray R) (b idx s : nat) (st : buffers) :
  fst (visit self grid coords b idx s st) = st
  \/ exists hm lm lk,
       take_channel (heatmap st) b idx = OK hm
       /\ fst (visit self grid coords b idx s st)
          = store st b idx
              (fst (update self grid (keypoint_at coords b idx s) hm lm lk)).
Proof.
  unfold visit.
  destruct (any_nonpositive _); [left; reflexivity|].
  destruct (take_channel (heatmap st) b idx) as [hm|e]; [|left; reflexivity].
  destruct (get_locref self (locref_map st) b idx) as [lm|e];
    [|left; reflexivity].
  destruct (get_locref self (locref_mask st) b idx) as [lk|e];
    [|left; reflexivity].
  right. exists hm, lm, lk. split; reflexivity.
Qed.

Lemma put_locref_shape (A : Type) (a : option (ndarray A)) (b idx : nat)
    (v : option (ndarray A)) (x : ndarray A) :
  a = Some x ->
  exists y, put_locref a b idx v = Some y /\ shape y = shape x.
Proof.
  intros ->. destruct v as [v|]; simpl; eexists; split; reflexivity.
Qed.

Lemma store_wf (self : HeatmapGenerator) (nb h w : nat) (st : buffers)
    (b idx : nat) (v : views) :
  wf_buffers self nb h w st -> wf_buffers self nb h w (store st b idx v).
Proof.
  intros [Hhm Hloc]. split; [exact Hhm|].
  destruct (generate_locref self).
  - destruct Hloc as (lm & lk & Hlm & Hlk & Hslm & Hslk).
    destruct (put_locref_shape b idx (v_locref_map v) Hlm) as (lm' & E1 & S1).
    destruct (put_locref_shape b idx (v_locref_mask v) Hlk) as (lk' & E2 & S2).
    exists lm', lk'. simpl. rewrite E1, E2, S1, S2. auto.
  - destruct Hloc as [Hlm Hlk]. simpl. rewrite Hlm, Hlk. split; reflexivity.
Qed.

Lemma visit_wf (self : HeatmapGenerator) (grid : ndarray Z)
    (coords : ndarray R) (nb h w b idx s : nat) (st : buffers) :
  wf_buffers self nb h w st ->
  wf_buffers self nb h w (fst (visit self grid coords b idx s st)).
Proof.
  intros Hwf.
  destruct (visit_cases self grid coords b idx s st)
    as [-> | (hm & lm & lk & _ & ->)].
  - exact Hwf.
  - apply store_wf. exact Hwf.
Qed.

Lemma visit_unit_valued (self : HeatmapGenerator) (grid : ndarray Z)
    (coords : ndarray R) (b idx s : nat) (st : buffers) :
  unit_valued (heatmap st) ->
  unit_valued (heatmap (fst (visit self grid coords b idx s st))).
Proof.
  intros Hu.
  destruct (visit_cases self grid coords b idx s st)
    as [-> | (hm & lm & lk & Hhm & ->)].
  - exact Hu.
  - assert (Hv : unit_valued hm).
    { intros ix. rewrite (take_channel_item _ _ _ Hhm). apply Hu. }
    pose proof (update_unit_valued self grid (keypoint_at coords b idx s)
                  lm lk Hv) as Hv'.
    intros ix. simpl.
    destruct ix as [|b' [|i [|j [|c' [|x ix]]]]]; try apply Hu.
    destruct ((b' =? b) && (c' =? idx)); [apply Hv' | apply Hu].
Qed.

(** In a configuration that completes, an iteration that passes the test of
    line 153 with indices in bounds stores the views that [update] returns
    and raises nothing. *)
Lemma visit_update (self : HeatmapGenerator) (grid : ndarray Z)
    (coords : ndarray R) (nb h w b idx s : nat) (st : buffers) :
  completes self -> b < nb -> idx < num_heatmaps self ->
  wf_buffers self nb h w st ->
  any_nonpositive (keypoint_at coords b idx s) = false ->
  exists lm lk,
    visit self grid coords b idx s st
    = (store st b idx
         (fst (update self grid (keypoint_at coords b idx s)
                 (NDArray [h; w] (fun ix => item (heatmap st) (b :: ix ++ [idx])))
                 lm lk)),
       None).
Proof.
  intros Hc Hb Hidx [Hhm Hloc] Hany. unfold visit. rewrite Hany.
  rewrite (take_channel_ok _ Hhm Hb Hidx).
  destruct (generate_locref self) eqn:Hg.
  - destruct Hloc as (lm & lk & Hlm & Hlk & Hslm & Hslk).
    rewrite Hlm, Hlk.
    destruct (get_locref_ok self lm idx Hg Hslm Hb) as (vm & -> & _).
    destruct (get_locref_ok self lk idx Hg Hslk Hb) as (vk & -> & _).
    exists (Some vm), (Some vk).
    destruct Hc as [Hk | Hk]; [|congruence].
    unfold update. rewrite Hk. reflexivity.
  - rewrite !get_locref_disabled by exact Hg.
    exists None, None.
    unfold update. destruct (kernel self); reflexivity.
Qed.

(** In a configuration that completes, an iteration with indices in bounds
    merges its keypoint into the cells of its channel and leaves every
    other cell of the heatmap as it is. *)
Lemma visit_ok (self : HeatmapGenerator) (grid : ndarray Z)
    (coords : ndarray R) (nb h w b idx s : nat) (st : buffers) :
  completes self -> b < nb -> idx < num_heatmaps self ->
  wf_buffers self nb h w st ->
  exists st',
    visit self grid coords b idx s st = (st', None)
    /\ wf_buffers self nb h w st'
    /\ forall key,
         cell (heatmap st') key
         = visit_value self grid coords b idx s key (cell (heatmap st) key).
Proof.
  intros Hc Hb Hidx Hwf. unfold visit_value.
  destruct (any_nonpositive (keypoint_at coords b idx s)) eqn:Hany.
  - exists st. split; [apply visit_skip; exact Hany|]. split; [exact Hwf|].
    intros [[[b' i] j] c']. simpl.
    destruct ((b' =? b) && (c' =? idx)); reflexivity.
  - destruct (visit_update grid coords s Hc Hb Hidx Hwf Hany) as (lm & lk & E).
    eexists. split; [exact E|]. split; [apply store_wf; exact Hwf|].
    intros [[[b' i] j] c']. simpl.
    destruct (Nat.eqb_spec b' b) as [-> | Hne]; simpl; [|reflexivity].
    destruct (Nat.eqb_spec c' idx) as [-> | Hne]; simpl; [|reflexivity].
    rewrite update_heatmap_item. reflexivity.
Qed.

(** ** The nested loops *)

Lemma visit_value_other_batch (self : HeatmapGenerator) (grid : ndarray Z)
    (coords : ndarray R) (b idx s b' i j c : nat) (v : R) :
  b <> b' -> visit_value self grid coords b idx s (b', i, j, c) v = v.
Proof.
  intros Hne. unfold visit_value.
  destruct (Nat.eqb_spec b' b) as [-> | _]; [contradiction|reflexivity].
Qed.

Lemma visit_value_other_channel (self : HeatmapGenerator) (grid : ndarray Z)
    (coords : ndarray R) (b idx s b' i j c : nat) (v : R) :
  idx <> c -> visit_value self grid coords b idx s (b', i, j, c) v = v.
Proof.
  intros Hne. unfold visit_value.
  destruct (Nat.eqb_spec c idx) as [-> | _]; [contradiction|].
  rewrite andb_false_r. reflexivity.
Qed.

Lemma fold_left_id (V : Type) (f : nat -> V -> V) (l : list nat) (v : V) :
  (forall k v', f k v' = v') -> fold_left (fun v' k => f k v') l v = v.
Proof.
  intros Hid. induction l as [|k l IH]; simpl; [reflexivity|].
  rewrite Hid. exact IH.
Qed.

(** The heatmap view of a channel, cell by cell. *)
Lemma update_all_item (self : HeatmapGenerator) (grid : ndarray Z)
    (lm : option (ndarray R)) (lk : option (ndarray Z))
    (ks : list Keypoint) (hm : ndarray R) (i j : nat) :
  item (update_all self grid lm lk ks hm) [i; j]
  = fold_left (fun v kp => merge self grid kp v i j) ks (item hm [i; j]).
Proof.
  revert hm. induction ks as [|kp ks IH]; intros hm; [reflexivity|].
  change (update_all self grid lm lk (kp :: ks) hm)
    with (update_all self grid lm lk ks
            (v_heatmap (fst (update self grid kp hm lm lk)))).
  rewrite IH, update_heatmap_item. reflexivity.
Qed.

Lemma fold_valid_keypoints (self : HeatmapGenerator) (grid : ndarray Z)
    (coords : ndarray R) (b c i j : nat) (l : list nat) (v : R) :
  fold_left (fun v' s => visit_value self grid coords b c s (b, i, j, c) v') l v
  = fold_left (fun v' kp => merge self grid kp v' i j)
      (filter (fun kp => negb (any_nonpositive kp))
         (map (keypoint_at coords b c) l)) v.
Proof.
  revert v. induction l as [|s l IH]; intros v; [reflexivity|].
  assert (Hhead : visit_value self grid coords b c s (b, i, j, c) v
                  = if any_nonpositive (keypoint_at coords b c s) then v
                    else merge self grid (keypoint_at coords b c s) v i j).
  { unfold visit_value. rewrite !Nat.eqb_refl. reflexivity. }
  cbn [fold_left map filter]. rewrite Hhead.
  destruct (any_nonpositive (keypoint_at coords b c s)); cbn [negb fold_left];
    apply IH.
Qed.

(** The loops complete in a configuration that completes, when the batch
    axis of the keypoints covers the batch and their channels are channels
    of the heatmap; each cell of the heatmap then holds what the calls of
    [update] for the valid keypoints of its channel, in the order of the
    subjects, make of its initial value. *)
Lemma rasterize_ok (self : HeatmapGenerator) (grid : ndarray Z)
    (coords : ndarray R) (nb h w : nat) (st : buffers) :
  completes self ->
  nb <= nth 0 (shape coords) 0 ->
  nth 1 (shape coords) 0 <= num_heatmaps self ->
  wf_buffers self nb h w st ->
  exists st',
    rasterize self grid coords nb st = (st', None)
    /\ wf_buffers self nb h w st'
    /\ forall b c i j,
         item (heatmap st') [b; i; j; c]
         = if (b <? nb) && (c <? nth 1 (shape coords) 0) then
             fold_left (fun v kp => merge self grid kp v i j)
               (valid_keypoints coords b c (nth 2 (shape coords) 0))
               (item (heatmap st) [b; i; j; c])
           else item (heatmap st) [b; i; j; c].
Proof.
  intros Hc Hnb Hnc Hwf.
  set (nc := nth 1 (shape coords) 0) in *.
  set (ns := nth 2 (shape coords) 0).
  pose (fs := fun b idx s key v => visit_value self grid coords b idx s key v).
  pose (fc := fun b idx key v =>
                fold_left (fun v' s => fs b idx s key v') (seq 0 ns) v).
  pose (fb := fun b key v =>
                fold_left (fun v' idx => fc b idx key v') (seq 0 nc) v).
  assert (Hinner : forall b idx st0,
             b < nb -> idx < nc -> wf_buffers self nb h w st0 ->
             exists st',
               for_range ns (fun s st => visit self grid coords b idx s st) st0
               = (st', None)
               /\ wf_buffers self nb h w st'
               /\ forall key,
                    cell (heatmap st') key = fc b idx key (cell (heatmap st0) key)).
  { intros b idx st0 Hb Hidx Hwf0.
    apply (for_each_fold (wf_buffers self nb h w)
             (fun st key => cell (heatmap st) key) (fs b idx)); [|exact Hwf0].
    intros s st1 _ Hwf1. apply visit_ok; try assumption. lia. }
  assert (Hmiddle : forall b st0,
             b < nb -> wf_buffers self nb h w st0 ->
             exists st',
               for_range nc
                 (fun idx st =>
                    for_range ns (fun s st => visit self grid coords b idx s st) st)
                 st0
               = (st', None)
               /\ wf_buffers self nb h w st'
               /\ forall key,
                    cell (heatmap st') key = fb b key (cell (heatmap st0) key)).
  { intros b st0 Hb Hwf0.
    apply (for_each_fold (wf_buffers self nb h w)
             (fun st key => cell (heatmap st) key) (fc b)); [|exact Hwf0].
    intros idx st1 Hin Hwf1. apply in_seq in Hin.
    apply Hinner; try assumption. lia. }
  assert (Houter : forall b st1,
             In b (seq 0 nb) -> wf_buffers self nb h w st1 ->
             exists st',
               (if b <? nth 0 (shape coords) 0 then
                  for_range nc
                    (fun idx st =>
                       for_range ns
                         (fun s st => visit self grid coords b idx s st) st)
                    st1
                else (st1, Some IndexError))
               = (st', None)
               /\ wf_buffers self nb h w st'
               /\ forall key,
                    cell (heatmap st') key = fb b key (cell (heatmap st1) key)).
  { intros b st1 Hin Hwf1. apply in_seq in Hin.
    replace (b <? nth 0 (shape coords) 0) with true
      by (symmetry; apply Nat.ltb_lt; lia).
    apply Hmiddle; [lia | exact Hwf1]. }
  destruct (@for_each_fold _ _ _ (wf_buffers self nb h w)
              (fun st key => cell (heatmap st) key) fb (seq 0 nb) _
              Houter st Hwf)
    as (st' & E & Hwf' & Hobs).
  exists st'. split; [exact E|]. split; [exact Hwf'|].
  intros b c i j. specialize (Hobs (b, i, j, c)). simpl in Hobs.
  rewrite Hobs. clear Hobs E.
  rewrite (@fold_left_single R (fun b' v => fb b' (b, i, j, c) v) (seq 0 nb) b
             (item (heatmap st) [b; i; j; c]) (seq_NoDup nb 0)).
  2: { intros b' v' Hne. unfold fb. apply fold_left_id. intros idx v.
       unfold fc. apply fold_left_id. intros s v0.
       apply visit_value_other_batch. exact Hne. }
  rewrite existsb_eqb_seq.
  destruct (b <? nb); simpl; [|reflexivity].
  unfold fb.
  rewrite (@fold_left_single R (fun idx v => fc b idx (b, i, j, c) v)
             (seq 0 nc) c (item (heatmap st) [b; i; j; c]) (seq_NoDup nc 0)).
  2: { intros idx v' Hne. unfold fc. apply fold_left_id. intros s v0.
       apply visit_value_other_channel. exact Hne. }
  rewrite existsb_eqb_seq.
  destruct (c <? nc); [|reflexivity].
  unfold fc, fs, valid_keypoints. apply fold_valid_keypoints.
Qed.

(** ** forward *)

Lemma true_div_ok (a b : nat) :
  b <> 0 ->
  true_div a b = OK (inject_Z (Z.of_nat a) / inject_Z (Z.of_nat b))%Q.
Proof.
  intros Hb. unfold true_div.
  destruct (Nat.eqb_spec b 0); [contradiction | reflexivity].
Qed.

Lemma allocate_wf (self : HeatmapGenerator) (nb h w : nat) :
  wf_buffers self nb h w (allocate self nb h w).
Proof.
  unfold wf_buffers, allocate. destruct (generate_locref self); simpl.
  - split; [reflexivity|]. eexists. eexists. repeat split.
  - repeat split.
Qed.

Lemma allocate_zero (self : HeatmapGenerator) (nb h w : nat) :
  (forall idx, item (heatmap (allocate self nb h w)) idx = 0%R)
  /\ (forall lm, locref_map (allocate self nb h w) = Some lm ->
        forall idx, item lm idx = 0%R)
  /\ (forall lk, locref_mask (allocate self nb h w) = Some lk ->
        forall idx, item lk idx = 0%Z).
Proof.
  unfold allocate. destruct (generate_locref self); simpl.
  - repeat split; intros a H; injection H as <-; reflexivity.
  - repeat split; discriminate.
Qed.

Lemma transpose_0312_inv (A : Type) (a a' : ndarray A) :
  transpose [0; 3; 1; 2] a = OK a' ->
  shape a' = map (fun p => nth p (shape a) 0) [0; 3; 1; 2]
  /\ (forall b c i j, item a' [b; c; i; j] = item a [b; i; j; c])
  /\ (forall idx, exists idx', item a' idx = item a idx').
Proof.
  unfold transpose. destruct (is_permutation _ _); [|discriminate].
  intros H. injection H as <-. repeat split.
  intros idx. eexists. reflexivity.
Qed.

(** What [assemble] returns, when it returns. *)
Lemma assemble_inv (self : HeatmapGenerator) (outputs : Outputs)
    (st : buffers) (t : Target) :
  assemble self outputs st = OK t ->
  transpose [0; 3; 1; 2] (heatmap st) = OK (heatmap_target t)
  /\ match locref t with
     | Some (m, k) =>
         generate_locref self = true
         /\ exists lm lk,
              locref_map st = Some lm /\ locref_mask st = Some lk
              /\ transpose [0; 3; 1; 2] lm = OK m
              /\ transpose [0; 3; 1; 2] lk = OK k
     | None => generate_locref self = false
     end.
Proof.
  unfold assemble.
  destruct (transpose [0; 3; 1; 2] (heatmap st)) as [hm|e]; [|discriminate].
  simpl. destruct (generate_locref self).
  - destruct (locref_map st) as [lm|]; [|discriminate].
    destruct (locref_mask st) as [lk|]; [|discriminate].
    destruct (transpose [0; 3; 1; 2] lm) as [m|e] eqn:Em; [|discriminate].
    destruct (transpose [0; 3; 1; 2] lk) as [k|e] eqn:Ek; [|discriminate].
    simpl. destruct (has_locref outputs); [|discriminate].
    intros H. injection H as <-. simpl. split; [reflexivity|].
    split; [reflexivity|]. exists lm, lk. auto.
  - intros H. injection H as <-. simpl. split; reflexivity.
Qed.

(** [assemble] returns on buffers of the allocated shapes, provided
    [outputs] has the key ["locref"] when the location refinement maps are
    generated. *)
Lemma assemble_ok (self : HeatmapGenerator) (outputs : Outputs)
    (nb h w : nat) (st : buffers) :
  wf_buffers self nb h w st ->
  (generate_locref self = true -> has_locref outputs = true) ->
  exists t, assemble self outputs st = OK t.
Proof.
  intros [Hhm Hloc] Hout. unfold assemble.
  destruct (transpose_0312 _ Hhm) as (hm' & -> & _). simpl.
  destruct (generate_locref self).
  - destruct Hloc as (lm & lk & -> & -> & Hslm & Hslk).
    destruct (transpose_0312 _ Hslm) as (lm' & -> & _).
    destruct (transpose_0312 _ Hslk) as (lk' & -> & _).
    simpl. rewrite Hout by reflexivity. eexists. reflexivity.
  - eexists. reflexivity.
Qed.

(** What [fill_buffers] returns, when it returns. *)
Lemma fill_buffers_inv (self : HeatmapGenerator) (inputs : Inputs)
    (outputs : Outputs) (coords : ndarray R) (st : buffers) :
  fill_buffers self inputs outputs coords = OK st ->
  exists stride_y stride_x coords' grid,
    true_div (input_h inputs) (height outputs) = OK stride_y
    /\ true_div (input_w inputs) (width outputs) = OK stride_x
    /\ normalize_coords self (batch_size inputs) coords = OK coords'
    /\ build_grid (height outputs) (width outputs) stride_y stride_x = OK grid
    /\ rasterize self grid coords' (batch_size inputs)
         (allocate self (batch_size inputs) (height outputs) (width outputs))
       = (st, None).
Proof.
  unfold fill_buffers.
  destruct (true_div (input_h inputs) (height outputs)) as [sy|e] eqn:Ey;
    [|discriminate].
  destruct (true_div (input_w inputs) (width outputs)) as [sx|e] eqn:Ex;
    [|discriminate].
  destruct (normalize_coords self (batch_size inputs) coords)
    as [coords'|e] eqn:Ec; [|discriminate].
  cbn [bind].
  destruct (build_grid (height outputs) (width outputs) sy sx)
    as [grid|e] eqn:Eg; [|discriminate].
  cbn [bind].
  destruct (rasterize self grid coords' (batch_size inputs) _)
    as [st' [e|]] eqn:E; [discriminate|].
  intros H. injection H as <-.
  exists sy, sx, coords', grid. auto.
Qed.

Lemma rasterize_invariant (P : buffers -> Prop) (self : HeatmapGenerator)
    (grid : ndarray Z) (coords : ndarray R) (nb : nat) (st : buffers) :
  (forall b idx s st', P st' -> P (fst (visit self grid coords b idx s st'))) ->
  P st -> P (fst (rasterize self grid coords nb st)).
Proof.
  intros Hvisit. unfold rasterize, for_range.
  apply for_each_invariant. intros b st1 H1.
  destruct (b <? nth 0 (shape coords) 0); [|exact H1].
  apply for_each_invariant; [|exact H1]. intros idx st2 H2.
  apply for_each_invariant; [|exact H2]. intros s st3 H3.
  apply Hvisit. exact H3.
Qed.

Lemma fill_buffers_wf (self : HeatmapGenerator) (inputs : Inputs)
    (outputs : Outputs) (coords : ndarray R) (st : buffers) :
  fill_buffers self inputs outputs coords = OK st ->
  wf_buffers self (batch_size inputs) (height outputs) (width outputs) st.
Proof.
  intros H. apply fill_buffers_inv in H.
  destruct H as (sy & sx & coords' & grid & _ & _ & _ & _ & E).
  change st with (fst (st, @None exn)). rewrite <- E.
  apply rasterize_invariant.
  - intros b idx s st' Hst'. apply visit_wf. exact Hst'.
  - apply allocate_wf.
Qed.

Lemma fill_buffers_unit_valued (self : HeatmapGenerator) (inputs : Inputs)
    (outputs : Outputs) (coords : ndarray R) (st : buffers) :
  fill_buffers self inputs outputs coords = OK st ->
  unit_valued (heatmap st).
Proof.
  intros H. apply fill_buffers_inv in H.
  destruct H as (sy & sx & coords' & grid & _ & _ & _ & _ & E).
  change st with (fst (st, @None exn)). rewrite <- E.
  apply (rasterize_invariant (fun st => unit_valued (heatmap st))).
  - intros b idx s st' Hst'. apply visit_unit_valued. exact Hst'.
  - intros idx. rewrite (proj1 (allocate_zero self _ _ _)). lra.
Qed.

Lemma forward_inv (self : HeatmapGenerator) (inputs : Inputs)
    (outputs : Outputs) (coords : ndarray R) (t : Target) :
  forward self inputs outputs coords = OK t ->
  exists st,
    fill_buffers self inputs outputs coords = OK st
    /\ assemble self outputs st = OK t.
Proof.
  unfold forward.
  destruct (fill_buffers self inputs outputs coords) as [st|e]; [|discriminate].
  simpl. intros H. exists st. auto.
Qed.

(** [forward] returns in a configuration that completes, when the batch axis
    of the keypoints covers the batch and their channels are channels of the
    heatmap; the channel [c] of batch element [b] of the returned heatmap is
    then what the calls of [update] for the valid keypoints of that channel
    make of a zero heatmap. *)
Lemma forward_ok (self : HeatmapGenerator) (inputs : Inputs)
    (outputs : Outputs) (coords coords' : ndarray R) (stride_y stride_x : Q)
    (grid : ndarray Z) :
  true_div (input_h inputs) (height outputs) = OK stride_y ->
  true_div (input_w inputs) (width outputs) = OK stride_x ->
  normalize_coords self (batch_size inputs) coords = OK coords' ->
  build_grid (height outputs) (width outputs) stride_y stride_x = OK grid ->
  completes self ->
  batch_size inputs <= nth 0 (shape coords') 0 ->
  nth 1 (shape coords') 0 <= num_heatmaps self ->
  (generate_locref self = true -> has_locref outputs = true) ->
  exists t,
    forward self inputs outputs coords = OK t
    /\ forall b c i j,
         item (heatmap_target t) [b; c; i; j]
         = if (b <? batch_size inputs) && (c <? nth 1 (shape coords') 0) then
             item (update_all self grid None None
                     (valid_keypoints coords' b c (nth 2 (shape coords') 0))
                     (zeros 0%R [height outputs; width outputs])) [i; j]
           else 0%R.
Proof.
  intros Ey Ex Ec Eg Hc Hnb Hnc Hout.
  destruct (@rasterize_ok self grid coords' _ _ _ _ Hc Hnb Hnc
              (allocate_wf self (batch_size inputs) (height outputs)
                 (width outputs)))
    as (st & E & Hwf & Hitem).
  destruct (@assemble_ok self outputs _ _ _ _ Hwf Hout) as (t & Et).
  exists t. split.
  - unfold forward, fill_buffers. rewrite Ey, Ex, Ec. cbn [bind].
    rewrite Eg. cbn [bind]. rewrite E. cbn [bind]. exact Et.
  - intros b c i j.
    apply assemble_inv in Et. destruct Et as [Hhm _].
    apply transpose_0312_inv in Hhm. destruct Hhm as (_ & Htr & _).
    rewrite Htr, Hitem.
    rewrite (proj1 (allocate_zero self _ _ _)).
    destruct ((b <? batch_size inputs) && (c <? nth 1 (shape coords') 0));
      [|reflexivity].
    rewrite update_all_item. reflexivity.
Qed.

(** C10.  Every value of the heatmap that [forward] returns lies in the
    closed interval from 0 to 1, for both rules and any number of subjects
    and channels.  The threshold of the Gaussian rule is not zero: the
    quotient by [2 * std ** 2] is then a real number. *)
Theorem heatmap_in_unit_interval (self : HeatmapGenerator) (inputs : Inputs)
    (outputs : Outputs) (coords : ndarray R) (t : Target) :
  forward self inputs outputs coords = OK t ->
  (kernel self = Gaussian -> pos_dist_thresh self <> 0%Z) ->
  forall idx, (0 <= item (heatmap_target t) idx <= 1)%R.
Proof.
  intros H _ idx.
  apply forward_inv in H. destruct H as (st & Hfill & Hasm).
  apply assemble_inv in Hasm. destruct Hasm as [Hhm _].
  apply transpose_0312_inv in Hhm. destruct Hhm as (_ & _ & Htr).
  destruct (Htr idx) as [idx' ->].
  apply fill_buffers_unit_valued in Hfill. apply Hfill.
Qed.

Lemma heatmap_in_unit_interval_witness :
  exists t,
    forward gaussian_no_locref scenario_inputs scenario_outputs scenario_coords
    = OK t
    /\ (kernel gaussian_no_locref = Gaussian ->
        pos_dist_thresh gaussian_no_locref <> 0%Z)
    /\ forall idx, (0 <= item (heatmap_target t) idx <= 1)%R.
Proof.
  assert (H : exists t,
             forward gaussian_no_locref scenario_inputs scenario_outputs
               scenario_coords = OK t).
  { edestruct (@forward_ok gaussian_no_locref scenario_inputs scenario_outputs
                 scenario_coords) as (t & Ht & _);
      [reflexivity | reflexivity | reflexivity | reflexivity
      | right; reflexivity | simpl; lia | simpl; lia | discriminate
      | exists t; exact Ht]. }
  destruct H as (t & Ht).
  exists t. split; [exact Ht|]. split; [discriminate|].
  apply (@heatmap_in_unit_interval gaussian_no_locref scenario_inputs
           scenario_outputs scenario_coords t Ht). discriminate.
Defined.

(** C8.  The arrays that [forward] returns are the buffers with the channel
    axis moved in front of the height and width axes: the value at
    [(b, c, h, w)] is the value of the buffer at [(b, h, w, c)].  The heatmap
    has [num_heatmaps] channels; the location refinement map and mask are
    returned exactly when they are generated, and have [2 * num_heatmaps]
    channels. *)
Theorem assembler_layout (self : HeatmapGenerator) (inputs : Inputs)
    (outputs : Outputs) (coords : ndarray R) (t : Target) :
  forward self inputs outputs coords = OK t ->
  exists st,
    fill_buffers self inputs outputs coords = OK st
    /\ shape (heatmap_target t)
       = [batch_size inputs; num_heatmaps self; height outputs; width outputs]
    /\ (forall b c h w,
          item (heatmap_target t) [b; c; h; w] = item (heatmap st) [b; h; w; c])
    /\ match locref t with
       | Some (m, k) =>
           generate_locref self = true
           /\ exists lm lk,
                locref_map st = Some lm /\ locref_mask st = Some lk
                /\ shape m = [batch_size inputs; 2 * num_heatmaps self;
                              height outputs; width outputs]
                /\ shape k = [batch_size inputs; 2 * num_heatmaps self;
                              height outputs; width outputs]
                /\ forall b c h w,
                     item m [b; c; h; w] = item lm [b; h; w; c]
                     /\ item k [b; c; h; w] = item lk [b; h; w; c]
       | None => generate_locref self = false
       end.
Proof.
  intros H.
  apply forward_inv in H. destruct H as (st & Hfill & Hasm).
  exists st. split; [exact Hfill|].
  apply fill_buffers_wf in Hfill. destruct Hfill as [Hshape Hloc].
  apply assemble_inv in Hasm. destruct Hasm as [Hhm Hlocref].
  apply transpose_0312_inv in Hhm. destruct Hhm as (Hs & Htr & _).
  split; [rewrite Hs, Hshape; reflexivity|]. split; [exact Htr|].
  destruct (locref t) as [[m k]|]; [|exact Hlocref].
  destruct Hlocref as (Hg & lm & lk & Hlm & Hlk & Hm & Hk).
  split; [exact Hg|]. exists lm, lk. split; [exact Hlm|]. split; [exact Hlk|].
  rewrite Hg in Hloc.
  destruct Hloc as (lm0 & lk0 & Hlm0 & Hlk0 & Hslm & Hslk).
  rewrite Hlm in Hlm0. rewrite Hlk in Hlk0.
  injection Hlm0 as <-. injection Hlk0 as <-.
  apply transpose_0312_inv in Hm. destruct Hm as (Hsm & Htm & _).
  apply transpose_0312_inv in Hk. destruct Hk as (Hsk & Htk & _).
  rewrite Hsm, Hsk, Hslm, Hslk. simpl map.
  rewrite (Nat.mul_comm (num_heatmaps self) 2).
  repeat split; [apply Htm | apply Htk].
Qed.

Lemma assembler_layout_witness :
  exists t,
    forward plateau_with_locref scenario_inputs scenario_outputs scenario_coords
    = OK t
    /\ exists st,
         fill_buffers plateau_with_locref scenario_inputs scenario_outputs
           scenario_coords = OK st
         /\ shape (heatmap_target t) = [1; 2; 4; 4]
         /\ (forall b c h w,
               item (heatmap_target t) [b; c; h; w]
               = item (heatmap st) [b; h; w; c])
         /\ match locref t with
            | Some (m, k) =>
                generate_locref plateau_with_locref = true
                /\ exists lm lk,
                     locref_map st = Some lm /\ locref_mask st = Some lk
                     /\ shape m = [1; 4; 4; 4]
                     /\ shape k = [1; 4; 4; 4]
                     /\ forall b c h w,
                          item m [b; c; h; w] = item lm [b; h; w; c]
                          /\ item k [b; c; h; w] = item lk [b; h; w; c]
            | None => generate_locref plateau_with_locref = false
            end.
Proof.
  assert (H : exists t,
             forward plateau_with_locref scenario_inputs scenario_outputs
               scenario_coords = OK t).
  { edestruct (@forward_ok plateau_with_locref scenario_inputs scenario_outputs
                 scenario_coords) as (t & Ht & _);
      [reflexivity | reflexivity | reflexivity | reflexivity
      | left; reflexivity | simpl; lia | simpl; lia | reflexivity
      | exists t; exact Ht]. }
  destruct H as (t & Ht).
  exists t. split; [exact Ht|].
  exact (@assembler_layout plateau_with_locref scenario_inputs
           scenario_outputs scenario_coords t Ht).
Defined.

(** ** Keypoints that are skipped *)

Lemma any_nonpositive_iff (kp : Keypoint) :
  any_nonpositive kp = true <-> (fst kp <= 0)%R \/ (snd kp <= 0)%R.
Proof.
  unfold any_nonpositive. rewrite orb_true_iff, !Rleb_true_iff. reflexivity.
Qed.

Lemma keypoint_at_nonpositive (coords : ndarray R) (b idx s : nat) :
  (item coords [b; idx; s; 0%nat] <= 0)%R \/ (item coords [b; idx; s; 1%nat] <= 0)%R ->
  any_nonpositive (keypoint_at coords b idx s) = true.
Proof.
  intros H. apply any_nonpositive_iff. unfold keypoint_at, reversed. simpl.
  tauto.
Qed.

Lemma rasterize_all_skipped (self : HeatmapGenerator) (grid : ndarray Z)
    (coords : ndarray R) (nb : nat) (st : buffers) :
  nb <= nth 0 (shape coords) 0 ->
  (forall b idx s, any_nonpositive (keypoint_at coords b idx s) = true) ->
  rasterize self grid coords nb st = (st, None).
Proof.
  intros Hnb Hall. unfold rasterize, for_range.
  apply for_each_skip. intros b Hb. apply in_seq in Hb.
  replace (b <? nth 0 (shape coords) 0) with true
    by (symmetry; apply Nat.ltb_lt; lia).
  apply for_each_skip. intros idx _.
  apply for_each_skip. intros s _.
  apply visit_skip. apply Hall.
Qed.

(** C3.  The iteration for a keypoint that has a coordinate less than or
    equal to 0 leaves the heatmap, the location refinement map and the mask
    as they are and raises nothing; and when no keypoint of the batch has
    two positive coordinates, as for a batch that holds a single such
    keypoint, [forward] returns arrays that are zero everywhere. *)
Theorem nonpositive_keypoint_skipped (self : HeatmapGenerator)
    (inputs : Inputs) (outputs : Outputs) (coords coords' : ndarray R) :
  (forall grid b idx s st,
     (item coords' [b; idx; s; 0%nat] <= 0)%R
     \/ (item coords' [b; idx; s; 1%nat] <= 0)%R ->
     visit self grid coords' b idx s st = (st, None))
  /\ (height outputs <> 0 -> width outputs <> 0 ->
      normalize_coords self (batch_size inputs) coords = OK coords' ->
      batch_size inputs <= nth 0 (shape coords') 0 ->
      (generate_locref self = true -> has_locref outputs = true) ->
      (forall b idx s,
         (item coords' [b; idx; s; 0%nat] <= 0)%R
         \/ (item coords' [b; idx; s; 1%nat] <= 0)%R) ->
      exists t,
        forward self inputs outputs coords = OK t
        /\ (forall idx, item (heatmap_target t) idx = 0%R)
        /\ match locref t with
           | Some (m, k) =>
               generate_locref self = true
               /\ forall idx, item m idx = 0%R /\ item k idx = 0%Z
           | None => generate_locref self = false
           end).
Proof.
  split.
  - intros grid b idx s st H. apply visit_skip, keypoint_at_nonpositive, H.
  - intros Hh Hw Ec Hnb Hout Hall.
    destruct (build_grid_item (height outputs) (width outputs)
                (inject_Z (Z.of_nat (input_h inputs))
                 / inject_Z (Z.of_nat (height outputs)))%Q
                (inject_Z (Z.of_nat (input_w inputs))
                 / inject_Z (Z.of_nat (width outputs)))%Q)
      as (grid & Eg & _).
    assert (Hfill : fill_buffers self inputs outputs coords
                    = OK (allocate self (batch_size inputs) (height outputs)
                            (width outputs))).
    { unfold fill_buffers.
      rewrite (true_div_ok _ Hh), (true_div_ok _ Hw), Ec. cbn [bind].
      rewrite Eg. cbn [bind].
      rewrite rasterize_all_skipped; [reflexivity | exact Hnb |].
      intros b idx s. apply keypoint_at_nonpositive, Hall. }
    destruct (@assemble_ok self outputs _ _ _ _
                (allocate_wf self (batch_size inputs) (height outputs)
                   (width outputs)) Hout) as (t & Et).
    exists t. split; [unfold forward; rewrite Hfill; exact Et|].
    destruct (allocate_zero self (batch_size inputs) (height outputs)
                (width outputs)) as (Z0 & Z1 & Z2).
    apply assemble_inv in Et. destruct Et as [Hhm Hloc].
    apply transpose_0312_inv in Hhm. destruct Hhm as (_ & _ & Htr).
    split.
    + intros idx. destruct (Htr idx) as [idx' ->]. apply Z0.
    + destruct (locref t) as [[m k]|]; [|exact Hloc].
      destruct Hloc as (Hg & lm & lk & Hlm & Hlk & Hm & Hk).
      split; [exact Hg|].
      apply transpose_0312_inv in Hm. destruct Hm as (_ & _ & Htm).
      apply transpose_0312_inv in Hk. destruct Hk as (_ & _ & Htk).
      intros idx. destruct (Htm idx) as [i1 ->]. destruct (Htk idx) as [i2 ->].
      split; [apply (Z1 _ Hlm) | apply (Z2 _ Hlk)].
Qed.

Lemma nonpositive_keypoint_skipped_witness :
  exists t,
    forward gaussian_with_locref scenario_inputs scenario_outputs absent_coords
    = OK t
    /\ (forall idx, item (heatmap_target t) idx = 0%R)
    /\ match locref t with
       | Some (m, k) =>
           generate_locref gaussian_with_locref = true
           /\ forall idx, item m idx = 0%R /\ item k idx = 0%Z
       | None => generate_locref gaussian_with_locref = false
       end.
Proof.
  refine (proj2 (@nonpositive_keypoint_skipped gaussian_with_locref
                   scenario_inputs scenario_outputs absent_coords _)
            _ _ _ _ _ _).
  - discriminate.
  - discriminate.
  - reflexivity.
  - simpl. lia.
  - reflexivity.
  - intros b idx s. left. simpl. lra.
Defined.

(** ** The truth value of the mask in the Gaussian rule *)

(** With the location refinement maps generated, the iteration of the
    Gaussian generator for a keypoint that passes the test of line 153
    raises [ValueError]. *)
Lemma visit_gaussian_locref (self : HeatmapGenerator) (grid : ndarray Z)
    (coords : ndarray R) (nb h w b idx s : nat) (st : buffers) :
  kernel self = Gaussian -> generate_locref self = true ->
  h <> 0 -> w <> 0 -> b < nb -> idx < num_heatmaps self ->
  wf_buffers self nb h w st ->
  wf_buffers self nb h w (fst (visit self grid coords b idx s st))
  /\ snd (visit self grid coords b idx s st)
     = if any_nonpositive (keypoint_at coords b idx s) then None
       else Some ValueError.
Proof.
  intros Hk Hg Hh Hw Hb Hidx Hwf. split; [apply visit_wf; exact Hwf|].
  unfold visit. destruct (any_nonpositive _); [reflexivity|].
  destruct Hwf as [Hhm Hloc]. rewrite Hg in Hloc.
  destruct Hloc as (lm & lk & Hlm & Hlk & Hslm & Hslk).
  rewrite (take_channel_ok _ Hhm Hb Hidx), Hlm, Hlk.
  destruct (get_locref_ok self lm idx Hg Hslm Hb) as (vm & -> & _).
  destruct (get_locref_ok self lk idx Hg Hslk Hb) as (vk & -> & Hsvk).
  cbn [snd]. unfold update. rewrite Hk.
  apply gaussian_update_mask_raises.
  rewrite Hsvk. simpl.
  replace (Nat.min (idx + (idx + 0) + 2) (num_heatmaps self * 2)
           - Nat.min (idx + (idx + 0)) (num_heatmaps self * 2)) with 2 by lia.
  nia.
Qed.

(** With the location refinement maps generated, which is the default,
    [forward] of the Gaussian generator raises [ValueError] as soon as a
    keypoint of the batch has two positive coordinates. *)
Lemma forward_gaussian_locref_raises (self : HeatmapGenerator)
    (inputs : Inputs) (outputs : Outputs) (coords coords' : ndarray R)
    (b0 idx0 s0 : nat) :
  kernel self = Gaussian -> generate_locref self = true ->
  height outputs <> 0 -> width outputs <> 0 ->
  normalize_coords self (batch_size inputs) coords = OK coords' ->
  batch_size inputs <= nth 0 (shape coords') 0 ->
  nth 1 (shape coords') 0 <= num_heatmaps self ->
  b0 < batch_size inputs ->
  idx0 < nth 1 (shape coords') 0 ->
  s0 < nth 2 (shape coords') 0 ->
  any_nonpositive (keypoint_at coords' b0 idx0 s0) = false ->
  forward self inputs outputs coords = Raise ValueError.
Proof.
  intros Hk Hg Hh Hw Ec Hnb Hnc Hb0 Hidx0 Hs0 Hvalid.
  destruct (build_grid_item (height outputs) (width outputs)
              (inject_Z (Z.of_nat (input_h inputs))
               / inject_Z (Z.of_nat (height outputs)))%Q
              (inject_Z (Z.of_nat (input_w inputs))
               / inject_Z (Z.of_nat (width outputs)))%Q)
    as (grid & Eg & _).
  set (Inv := wf_buffers self (batch_size inputs) (height outputs)
                (width outputs)).
  assert (Hvisit : forall b idx s st,
             b < batch_size inputs -> idx < nth 1 (shape coords') 0 -> Inv st ->
             Inv (fst (visit self grid coords' b idx s st))
             /\ (snd (visit self grid coords' b idx s st) = None
                 \/ snd (visit self grid coords' b idx s st) = Some ValueError)).
  { intros b idx s st Hb Hidx Hst.
    destruct (@visit_gaussian_locref self grid coords' _ _ _ b idx s st
                Hk Hg Hh Hw Hb (Nat.lt_le_trans _ _ _ Hidx Hnc) Hst)
      as [Hwf Hsnd].
    split; [exact Hwf|]. rewrite Hsnd.
    destruct (any_nonpositive (keypoint_at coords' b idx s));
      [left | right]; reflexivity. }
  assert (Hinner : forall b idx st,
             b < batch_size inputs -> idx < nth 1 (shape coords') 0 -> Inv st ->
             let r := for_range (nth 2 (shape coords') 0)
                        (fun s st => visit self grid coords' b idx s st) st in
             Inv (fst r) /\ (snd r = None \/ snd r = Some ValueError)).
  { intros b idx st Hb Hidx Hst. apply for_each_outcomes; [|exact Hst].
    intros s st1 _ Hst1. apply Hvisit; assumption. }
  assert (Hmiddle : forall b st,
             b < batch_size inputs -> Inv st ->
             let r := for_range (nth 1 (shape coords') 0)
                        (fun idx st =>
                           for_range (nth 2 (shape coords') 0)
                             (fun s st => visit self grid coords' b idx s st) st)
                        st in
             Inv (fst r) /\ (snd r = None \/ snd r = Some ValueError)).
  { intros b st Hb Hst. apply for_each_outcomes; [|exact Hst].
    intros idx st1 Hin Hst1. apply in_seq in Hin.
    apply Hinner; [exact Hb | lia | exact Hst1]. }
  assert (Hraise : snd (rasterize self grid coords' (batch_size inputs)
                          (allocate self (batch_size inputs) (height outputs)
                             (width outputs)))
                   = Some ValueError).
  { unfold rasterize.
    apply (@for_each_raises buffers Inv ValueError (seq 0 (batch_size inputs))
             _ b0).
    - apply in_seq. lia.
    - intros b st Hin Hst. apply in_seq in Hin.
      replace (b <? nth 0 (shape coords') 0) with true
        by (symmetry; apply Nat.ltb_lt; lia).
      apply Hmiddle; [lia | exact Hst].
    - intros st Hst.
      replace (b0 <? nth 0 (shape coords') 0) with true
        by (symmetry; apply Nat.ltb_lt; lia).
      apply (@for_each_raises buffers Inv ValueError
               (seq 0 (nth 1 (shape coords') 0)) _ idx0).
      + apply in_seq. lia.
      + intros idx st1 Hin Hst1. apply in_seq in Hin.
        apply Hinner; [exact Hb0 | lia | exact Hst1].
      + intros st1 Hst1.
        apply (@for_each_raises buffers Inv ValueError
                 (seq 0 (nth 2 (shape coords') 0)) _ s0).
        * apply in_seq. lia.
        * intros s st2 _ Hst2. apply Hvisit; assumption.
        * intros st2 Hst2.
          destruct (@visit_gaussian_locref self grid coords' _ _ _ b0 idx0 s0
                      st2 Hk Hg Hh Hw Hb0 (Nat.lt_le_trans _ _ _ Hidx0 Hnc) Hst2)
            as [_ Hsnd].
          rewrite Hsnd, Hvalid. reflexivity.
        * exact Hst1.
      + exact Hst.
    - apply allocate_wf. }
  unfold forward, fill_buffers.
  rewrite (true_div_ok _ Hh), (true_div_ok _ Hw), Ec. cbn [bind].
  rewrite Eg. cbn [bind].
  destruct (rasterize self grid coords' (batch_size inputs) _) as [st [e|]];
    simpl in Hraise; [|discriminate].
  injection Hraise as ->. reflexivity.
Qed.

(** C1, at the failing input.  The Gaussian generator with its default
    [generate_locref=True], one image of 8 x 8 pixels, a feature map of
    4 x 4 cells and one keypoint at pixel (3, 3): [forward] raises
    [ValueError] at the test [if locref_mask:]. *)
Theorem gaussian_forward_raises :
  forward gaussian_with_locref scenario_inputs scenario_outputs scenario_coords
  = Raise ValueError.
Proof.
  eapply (@forward_gaussian_locref_raises gaussian_with_locref scenario_inputs
            scenario_outputs scenario_coords _ 0 0 0);
    try reflexivity; try discriminate; try (simpl; lia).
  apply not_true_is_false. intros H.
  apply any_nonpositive_iff in H. simpl in H. lra.
Qed.

(** ** The keypoints as the loops read them *)




(** ** Two subjects in one channel *)

Lemma normalize_coords_keypoint (self : HeatmapGenerator) (coords : ndarray R)
    (nb B S K D : nat) :
  heatmap_mode self = KEYPOINT ->
  shape coords = [B; S; K; D] ->
  exists coords',
    normalize_coords self nb coords = OK coords'
    /\ shape coords' = [B; K; S; D]
    /\ forall b k s x, item coords' [b; k; s; x] = item coords [b; s; k; x].
Proof.
  intros Hm Hsh. unfold normalize_coords. rewrite Hsh, Hm.
  cbn [length Nat.eqb bind].
  destruct (@transpose_0213 R coords B S K D Hsh) as (c2 & E2 & Hs2 & Hitem2).
  exists c2. auto.
Qed.

Lemma merge_zero_nonneg (self : HeatmapGenerator) (grid : ndarray Z)
    (kp : Keypoint) (i j : nat) :
  (0 <= merge self grid kp 0 i j)%R.
Proof.
  apply (@merge_bounds self grid kp 0%R i j). lra.
Qed.

(** In KEYPOINT mode, in a configuration that completes, the heatmap that
    [forward] returns for two subjects is the cellwise maximum of the
    heatmaps it returns for either subject alone. *)
Theorem forward_two_subjects (self : HeatmapGenerator) (inputs : Inputs)
    (outputs : Outputs) (coords : ndarray R) (B K D : nat) :
  heatmap_mode self = KEYPOINT ->
  completes self ->
  height outputs <> 0 -> width outputs <> 0 ->
  shape coords = [B; 2; K; D] ->
  batch_size inputs <= B ->
  K <= num_heatmaps self ->
  (generate_locref self = true -> has_locref outputs = true) ->
  exists t t0 t1,
    forward self inputs outputs coords = OK t
    /\ forward self inputs outputs (only_subject coords 0) = OK t0
    /\ forward self inputs outputs (only_subject coords 1) = OK t1
    /\ forall b c i j,
         item (heatmap_target t) [b; c; i; j]
         = Rmax (item (heatmap_target t0) [b; c; i; j])
             (item (heatmap_target t1) [b; c; i; j]).
Proof.
  intros Hm Hc Hh Hw Hsh HB HK Hout.
  destruct (build_grid_item (height outputs) (width outputs)
              (inject_Z (Z.of_nat (input_h inputs))
               / inject_Z (Z.of_nat (height outputs)))%Q
              (inject_Z (Z.of_nat (input_w inputs))
               / inject_Z (Z.of_nat (width outputs)))%Q)
    as (grid & Eg & _).
  assert (Hsub : forall s, shape (only_subject coords s) = [B; 1; K; D]).
  { intros s. unfold only_subject. rewrite Hsh. reflexivity. }
  destruct (@normalize_coords_keypoint self coords (batch_size inputs)
              B 2 K D Hm Hsh) as (c & Ec & Hsc & Hc').
  destruct (@normalize_coords_keypoint self (only_subject coords 0)
              (batch_size inputs) B 1 K D Hm (Hsub 0)) as (c0 & Ec0 & Hsc0 & Hc0).
  destruct (@normalize_coords_keypoint self (only_subject coords 1)
              (batch_size inputs) B 1 K D Hm (Hsub 1)) as (c1 & Ec1 & Hsc1 & Hc1).
  destruct (@forward_ok self inputs outputs coords c _ _ grid
              (true_div_ok _ Hh) (true_div_ok _ Hw) Ec Eg Hc)
    as (t & Ht & Hitem); try (rewrite Hsc; simpl; lia); try exact Hout.
  destruct (@forward_ok self inputs outputs (only_subject coords 0) c0 _ _ grid
              (true_div_ok _ Hh) (true_div_ok _ Hw) Ec0 Eg Hc)
    as (t0 & Ht0 & Hitem0); try (rewrite Hsc0; simpl; lia); try exact Hout.
  destruct (@forward_ok self inputs outputs (only_subject coords 1) c1 _ _ grid
              (true_div_ok _ Hh) (true_div_ok _ Hw) Ec1 Eg Hc)
    as (t1 & Ht1 & Hitem1); try (rewrite Hsc1; simpl; lia); try exact Hout.
  exists t, t0, t1. repeat split; try assumption.
  intros b c' i j. rewrite Hitem, Hitem0, Hitem1, Hsc, Hsc0, Hsc1.
  cbn [nth].
  destruct ((b <? batch_size inputs) && (c' <? K)).
  2: { unfold Rmax. destruct (Rle_dec _ _); reflexivity. }
  rewrite !update_all_item. unfold valid_keypoints. cbn [seq map].
  assert (E0 : keypoint_at c0 b c' 0 = keypoint_at c b c' 0).
  { unfold keypoint_at. rewrite !Hc0, !Hc'. reflexivity. }
  assert (E1 : keypoint_at c1 b c' 0 = keypoint_at c b c' 1).
  { unfold keypoint_at. rewrite !Hc1, !Hc'. reflexivity. }
  rewrite E0, E1. cbn [filter].
  change (item (zeros 0%R [height outputs; width outputs]) [i; j]) with 0%R.
  pose proof (merge_zero_nonneg self grid (keypoint_at c b c' 0) i j) as P0.
  pose proof (merge_zero_nonneg self grid (keypoint_at c b c' 1) i j) as P1.
  destruct (any_nonpositive (keypoint_at c b c' 0));
    destruct (any_nonpositive (keypoint_at c b c' 1)); cbn [negb fold_left].
  - unfold Rmax. destruct (Rle_dec _ _); reflexivity.
  - symmetry. apply Rmax_right. exact P1.
  - symmetry. apply Rmax_left. exact P0.
  - apply merge_merge.
Qed.

(** ** Scenarios *)

Lemma any_nonpositive_false (kp : Keypoint) :
  (0 < fst kp)%R -> (0 < snd kp)%R -> any_nonpositive kp = false.
Proof.
  intros H0 H1. unfold any_nonpositive.
  rewrite (proj2 (Rleb_false_iff _ _) H0), (proj2 (Rleb_false_iff _ _) H1).
  reflexivity.
Qed.

Lemma merge_gaussian_zero (self : HeatmapGenerator) (grid : ndarray Z)
    (kp : Keypoint) (i j : nat) :
  kernel self = Gaussian ->
  merge self grid kp 0%R i j = response self (sq_distance grid kp i j).
Proof.
  intros Hk. unfold merge. rewrite Hk, heatmap_j_eq.
  apply Rmax_right. left. apply response_pos.
Qed.

Lemma response_0 (self : HeatmapGenerator) : response self 0%R = 1%R.
Proof.
  unfold response.
  replace (- 0 / (2 * (2 * dist_thresh self / 3) ^ 2))%R with 0%R
    by (unfold Rdiv; ring).
  apply exp_0.
Qed.

Ltac name_scenario H :=
  match type of H with
  | context [update_all _ ?g _ _ (valid_keypoints ?c _ _ _) _] =>
      set (grid := g) in H; set (coords' := c) in H
  end.

(** One subject, two channels, a 4 x 4 feature map of an 8 x 8 image and
    the first keypoint at pixel (3, 3), the centre of cell (1, 1): the
    Gaussian generator without location refinement returns 1 in that cell of
    channel 0 and 0 everywhere in channel 1. *)
Theorem scenario_gaussian :
  exists t,
    forward gaussian_no_locref scenario_inputs scenario_outputs scenario_coords
    = OK t
    /\ item (heatmap_target t) [0; 0; 1; 1] = 1%R
    /\ forall i j, item (heatmap_target t) [0; 1; i; j] = 0%R.
Proof.
  edestruct (@forward_ok gaussian_no_locref scenario_inputs scenario_outputs
               scenario_coords) as (t & Ht & Hitem);
    [reflexivity | reflexivity | reflexivity | reflexivity
    | right; reflexivity | simpl; lia | simpl; lia | discriminate |].
  name_scenario Hitem.
  exists t. split; [exact Ht|]. split.
  - rewrite Hitem. change (nth 1 (shape coords') 0) with 2.
    change (nth 2 (shape coords') 0) with 1.
    cbn [Nat.ltb Nat.leb andb batch_size scenario_inputs].
    rewrite update_all_item. unfold valid_keypoints. cbn [seq map].
    change (keypoint_at coords' 0 0 0) with (3, 3)%R.
    cbn [filter]. rewrite any_nonpositive_false by (simpl; lra).
    cbn [negb fold_left]. change (item (zeros 0%R _) [1; 1]) with 0%R.
    rewrite merge_gaussian_zero by reflexivity.
    replace (sq_distance grid (3, 3)%R 1 1) with 0%R; [apply response_0|].
    unfold sq_distance.
    change (item grid [1; 1; 0]) with 3%Z. change (item grid [1; 1; 1]) with 3%Z.
    cbn [fst snd]. ring.
  - intros i j. rewrite Hitem. change (nth 1 (shape coords') 0) with 2.
    change (nth 2 (shape coords') 0) with 1.
    cbn [Nat.ltb Nat.leb andb batch_size scenario_inputs].
    rewrite update_all_item. unfold valid_keypoints. cbn [seq map].
    change (keypoint_at coords' 0 1 0) with (-1, -1)%R.
    cbn [filter].
    rewrite (proj2 (any_nonpositive_iff _)) by (left; simpl; lra).
    reflexivity.
Qed.

Ltac eval_cells grid :=
  repeat match goal with
    | |- context [item grid ?ix] =>
        let v := eval vm_compute in (item grid ix) in
        change (item grid ix) with v
    end.

(** The same scenario for the Plateau generator with a threshold of 2:
    channel 0 of the heatmap is the disc of the cells at index distance at
    most 1 from cell (1, 1), and channel 1 is 0 everywhere. *)
Theorem scenario_plateau :
  exists t,
    forward plateau_with_locref scenario_inputs scenario_outputs scenario_coords
    = OK t
    /\ (forall i j, i < 4 -> j < 4 ->
          item (heatmap_target t) [0; 0; i; j]
          = if ((Z.of_nat i - 1) ^ 2 + (Z.of_nat j - 1) ^ 2 <=? 1)%Z
            then 1%R else 0%R)
    /\ forall i j, item (heatmap_target t) [0; 1; i; j] = 0%R.
Proof.
  edestruct (@forward_ok plateau_with_locref scenario_inputs scenario_outputs
               scenario_coords) as (t & Ht & Hitem);
    [reflexivity | reflexivity | reflexivity | reflexivity
    | left; reflexivity | simpl; lia | simpl; lia | reflexivity |].
  name_scenario Hitem.
  exists t. split; [exact Ht|]. split.
  - intros i j Hi Hj. rewrite Hitem. change (nth 1 (shape coords') 0) with 2.
    change (nth 2 (shape coords') 0) with 1.
    cbn [Nat.ltb Nat.leb andb batch_size scenario_inputs].
    rewrite update_all_item. unfold valid_keypoints. cbn [seq map].
    change (keypoint_at coords' 0 0 0) with (3, 3)%R.
    cbn [filter]. rewrite any_nonpositive_false by (simpl; lra).
    cbn [negb fold_left].
    change (item (zeros 0%R _) [i; j]) with 0%R.
    unfold merge. cbn [kernel plateau_with_locref].
    unfold plateau_mask, plateau_dist, diff0, diff1, dist_thresh_sq, dist_thresh.
    cbn [fst snd pos_dist_thresh plateau_with_locref].
    destruct i as [|[|[|[|i]]]]; try lia;
      destruct j as [|[|[|[|j]]]]; try lia;
      eval_cells grid;
      match goal with
      | |- (if Rleb ?x ?y then _ else _) = _ =>
          first [ rewrite (proj2 (Rleb_true_iff x y)) by lra
                | rewrite (proj2 (Rleb_false_iff x y)) by lra ]
      end; reflexivity.
  - intros i j. rewrite Hitem. change (nth 1 (shape coords') 0) with 2.
    change (nth 2 (shape coords') 0) with 1.
    cbn [Nat.ltb Nat.leb andb batch_size scenario_inputs].
    rewrite update_all_item. unfold valid_keypoints. cbn [seq map].
    change (keypoint_at coords' 0 1 0) with (-1, -1)%R.
    cbn [filter].
    rewrite (proj2 (any_nonpositive_iff _)) by (left; simpl; lra).
    reflexivity.
Qed.

(** * Further properties of the code *)

(** ** The centres that the grid holds *)

Lemma astype_int_nonneg (n : Z) (d : positive) :
  (0 <= n)%Z -> astype_int (n # d) = (n / Z.pos d)%Z.
Proof.
  intros Hn. unfold astype_int. simpl.
  apply Z.quot_div_nonneg; [exact Hn | reflexivity].
Qed.

(** The cell of the grid for index [k] along an axis of [n] cells over
    [len] pixels, with the stride as an exact quotient: the centre
    [(2 k + 1) len / (2 n)], rounded down. *)
Lemma centre_floor (len n k : nat) :
  n <> 0 ->
  astype_int
    (inject_Z (Z.of_nat k) * (inject_Z (Z.of_nat len) / inject_Z (Z.of_nat n))
     + inject_Z (Z.of_nat len) / inject_Z (Z.of_nat n) / inject_Z 2)%Q
  = ((2 * Z.of_nat k + 1) * Z.of_nat len / (2 * Z.of_nat n))%Z.
Proof.
  intros Hn.
  destruct (Z.of_nat n) as [|p|p] eqn:Ep; try lia.
  unfold Qdiv, Qmult, Qplus, Qinv, inject_Z. cbn [Qnum Qden].
  rewrite astype_int_nonneg by (rewrite ?Pos2Z.inj_mul; nia).
  rewrite !Pos2Z.inj_mul.
  replace (Z.of_nat k * (Z.of_nat len * 1) * (1 * Z.pos p * 2)
           + Z.of_nat len * 1 * 1 * (1 * (1 * Z.pos p)))%Z
    with ((2 * Z.of_nat k + 1) * Z.of_nat len * Z.pos p)%Z by ring.
  replace (1 * (1 * Z.pos p) * (1 * Z.pos p * 2))%Z
    with (2 * Z.pos p * Z.pos p)%Z by ring.
  apply Z.div_mul_cancel_r; lia.
Qed.

Lemma true_div_inv (a b : nat) (q : Q) :
  true_div a b = OK q ->
  b <> 0 /\ q = (inject_Z (Z.of_nat a) / inject_Z (Z.of_nat b))%Q.
Proof.
  unfold true_div. destruct (Nat.eqb_spec b 0); [discriminate|].
  intros H. injection H as <-. split; [assumption | reflexivity].
Qed.

Lemma grid_cell_floor (ih iw h w : nat) (sy sx : Q) (grid : ndarray Z) :
  true_div ih h = OK sy -> true_div iw w = OK sx ->
  build_grid h w sy sx = OK grid ->
  forall i j,
    item grid [i; j; 0]
    = ((2 * Z.of_nat i + 1) * Z.of_nat ih / (2 * Z.of_nat h))%Z
    /\ item grid [i; j; 1]
       = ((2 * Z.of_nat j + 1) * Z.of_nat iw / (2 * Z.of_nat w))%Z.
Proof.
  intros Hy Hx Hg i j.
  apply true_div_inv in Hy, Hx. destruct Hy as [Hh ->], Hx as [Hw ->].
  destruct (build_grid_item h w
              (inject_Z (Z.of_nat ih) / inject_Z (Z.of_nat h))%Q
              (inject_Z (Z.of_nat iw) / inject_Z (Z.of_nat w))%Q)
    as (g & Eg & _ & Hitem).
  rewrite Eg in Hg. injection Hg as <-.
  destruct (Hitem i j) as [-> ->].
  split; apply centre_floor; assumption.
Qed.

(** X1.  For an integer stride (the image is [ky] times as high and [kx]
    times as wide as the feature map, and its sides are below [2 ^ 52], so
    that the float64 operations of lines 127, 146 and 147 are exact) the
    grid holds for the cell of row [i] and column [j] the pixel
    [(ky * i + ky / 2, kx * j + kx / 2)], in integer division: the centre of
    the cell for an even stride, half a pixel before it for an odd one, and
    in both cases a pixel of the image. *)
Theorem grid_centres (ih iw h w ky kx : nat) (sy sx : Q) (grid : ndarray Z)
    (i j : nat) :
  true_div ih h = OK sy -> true_div iw w = OK sx ->
  build_grid h w sy sx = OK grid ->
  ih = ky * h -> iw = kx * w ->
  (Z.of_nat ih < 2 ^ 52)%Z -> (Z.of_nat iw < 2 ^ 52)%Z ->
  i < h -> j < w ->
  let row := item grid [i; j; 0] in
  let col := item grid [i; j; 1] in
  row = Z.of_nat (ky * i + ky / 2)
  /\ col = Z.of_nat (kx * j + kx / 2)
  /\ (2 * row + Z.of_nat (ky mod 2) = (2 * Z.of_nat i + 1) * Z.of_nat ky)%Z
  /\ (2 * col + Z.of_nat (kx mod 2) = (2 * Z.of_nat j + 1) * Z.of_nat kx)%Z
  /\ (0 < ky -> (0 <= row < Z.of_nat ih)%Z)
  /\ (0 < kx -> (0 <= col < Z.of_nat iw)%Z).
Proof.
  intros Hy Hx Hg Eh Ew _ _ Hi Hj row col.
  destruct (@grid_cell_floor ih iw h w sy sx grid Hy Hx Hg i j) as [Hr Hc].
  fold row in Hr. fold col in Hc.
  assert (Hcell : forall len n k a : nat,
             n <> 0 -> len = k * n ->
             ((2 * Z.of_nat a + 1) * Z.of_nat len / (2 * Z.of_nat n))%Z
             = Z.of_nat (k * a + k / 2)).
  { intros len n k a Hn ->.
    replace ((2 * Z.of_nat a + 1) * Z.of_nat (k * n))%Z
      with ((2 * Z.of_nat a + 1) * Z.of_nat k * Z.of_nat n)%Z
      by (rewrite Nat2Z.inj_mul; ring).
    rewrite Z.div_mul_cancel_r by lia.
    symmetry. apply Z.div_unique with (r := Z.of_nat (k mod 2)).
    - left. pose proof (Nat.mod_upper_bound k 2). lia.
    - pose proof (Nat.div_mod_eq k 2). nia. }
  assert (Hh : h <> 0) by lia. assert (Hw : w <> 0) by lia.
  rewrite (Hcell ih h ky i Hh Eh) in Hr.
  rewrite (Hcell iw w kx j Hw Ew) in Hc.
  pose proof (Nat.div_mod_eq ky 2) as Dy.
  pose proof (Nat.div_mod_eq kx 2) as Dx.
  pose proof (Nat.mod_upper_bound ky 2) as My.
  pose proof (Nat.mod_upper_bound kx 2) as Mx.
  repeat split; try assumption; try nia.
Qed.

Lemma grid_centres_witness :
  exists sy sx grid,
    true_div 12 4 = OK sy /\ true_div 12 4 = OK sx
    /\ build_grid 4 4 sy sx = OK grid
    /\ item grid [1; 2; 0] = 4%Z /\ item grid [1; 2; 1] = 7%Z.
Proof.
  eexists. eexists. eexists.
  split; [reflexivity|]. split; [reflexivity|]. split; [reflexivity|].
  split.
  - refine (proj1 (@grid_centres 12 12 4 4 3 3 _ _ _ 1 2 eq_refl eq_refl
                     eq_refl eq_refl eq_refl _ _ _ _)); lia.
  - refine (proj1 (proj2 (@grid_centres 12 12 4 4 3 3 _ _ _ 1 2 eq_refl
                            eq_refl eq_refl eq_refl eq_refl _ _ _ _))); lia.
Defined.

(** X2.  Where the feature map has at most as many rows as the image, the
    centres of successive rows are distinct and increase with the row index;
    likewise for the columns.  In every case they do not decrease. *)
Theorem grid_centres_increase (ih iw h w : nat) (sy sx : Q)
    (grid : ndarray Z) (i i' j j' : nat) :
  true_div ih h = OK sy -> true_div iw w = OK sx ->
  build_grid h w sy sx = OK grid ->
  (i <= i' -> (item grid [i; j; 0%nat] <= item grid [i'; j'; 0%nat])%Z)
  /\ (j <= j' -> (item grid [i; j; 1%nat] <= item grid [i'; j'; 1%nat])%Z)
  /\ (h <= ih -> i < i' -> (item grid [i; j; 0%nat] < item grid [i'; j'; 0%nat])%Z)
  /\ (w <= iw -> j < j' -> (item grid [i; j; 1%nat] < item grid [i'; j'; 1%nat])%Z).
Proof.
  intros Hy Hx Hg.
  destruct (@grid_cell_floor ih iw h w sy sx grid Hy Hx Hg i j) as [Hr Hc].
  destruct (@grid_cell_floor ih iw h w sy sx grid Hy Hx Hg i' j') as [Hr' Hc'].
  apply true_div_inv in Hy, Hx. destruct Hy as [Hh _], Hx as [Hw _].
  rewrite Hr, Hc, Hr', Hc'.
  assert (Hmono : forall len n a b : nat,
             n <> 0 -> a <= b ->
             ((2 * Z.of_nat a + 1) * Z.of_nat len / (2 * Z.of_nat n)
              <= (2 * Z.of_nat b + 1) * Z.of_nat len / (2 * Z.of_nat n))%Z).
  { intros len n a b Hn Hab. apply Z.div_le_mono; [lia | nia]. }
  assert (Hstrict : forall len n a b : nat,
             n <> 0 -> n <= len -> a < b ->
             ((2 * Z.of_nat a + 1) * Z.of_nat len / (2 * Z.of_nat n)
              < (2 * Z.of_nat b + 1) * Z.of_nat len / (2 * Z.of_nat n))%Z).
  { intros len n a b Hn Hlen Hab.
    apply Z.lt_le_trans
      with (((2 * Z.of_nat a + 1) * Z.of_nat len + 1 * (2 * Z.of_nat n))
            / (2 * Z.of_nat n))%Z.
    - rewrite Z.div_add by lia. lia.
    - apply Z.div_le_mono; [lia | nia]. }
  repeat split; intros; auto.
Qed.

Lemma grid_centres_increase_witness :
  exists sy sx grid,
    true_div 8 4 = OK sy /\ true_div 8 4 = OK sx
    /\ build_grid 4 4 sy sx = OK grid
    /\ (item grid [1%nat; 0%nat; 0%nat] < item grid [2%nat; 0%nat; 0%nat])%Z.
Proof.
  eexists. eexists. eexists.
  split; [reflexivity|]. split; [reflexivity|]. split; [reflexivity|].
  refine (proj1 (proj2 (proj2
            (@grid_centres_increase 8 8 4 4 _ _ _ 1 2 0 0
               eq_refl eq_refl eq_refl))) _ _); lia.
Defined.

(** ** The names of the modes *)

Lemma upper_value (m : Mode) : enum.upper (enum.value m) = enum.value m.
Proof. destruct m; reflexivity. Qed.

Lemma value_injective (m m' : Mode) : enum.value m = enum.value m' -> m = m'.
Proof. destruct m, m'; intros H; try reflexivity; discriminate H. Qed.

(** X3.  [Mode(v)] accepts an ASCII string exactly when its upper-case form
    is the name of a mode, whatever the case of its letters, and returns that
    mode; every other string raises [ValueError].  In particular the name of
    a mode gives the mode back, and a member passed to [__init__] is kept. *)
Theorem mode_names_ignore_case (v : Strings.String.string) :
  enum.is_ascii v = true ->
  (forall m, enum.call v = OK m <-> enum.upper v = enum.value m)
  /\ ((forall m, enum.upper v <> enum.value m) ->
      enum.init_heatmap_mode (inl v) = Raise ValueError)
  /\ (forall m, enum.init_heatmap_mode (inl (enum.value m)) = OK m
                /\ enum.init_heatmap_mode (inr m) = OK m).
Proof.
  intros _.
  assert (Hfind : forall s m,
             find (fun member => Strings.String.eqb (enum.value member) s)
               enum.members = Some m
             <-> s = enum.value m).
  { intros s m. unfold enum.members. cbn [find].
    destruct (Strings.String.eqb_spec (enum.value INDIVIDUAL) s) as [E1 | N1].
    - split.
      + intros H. injection H as <-. symmetry. exact E1.
      + intros ->. apply value_injective in E1. subst. reflexivity.
    - destruct (Strings.String.eqb_spec (enum.value KEYPOINT) s) as [E2 | N2].
      + split.
        * intros H. injection H as <-. symmetry. exact E2.
        * intros ->. apply value_injective in E2. subst. reflexivity.
      + split; [discriminate|].
        intros ->. destruct m; [destruct N1 | destruct N2]; reflexivity. }
  assert (Hcall : forall m, enum.call v = OK m <-> enum.upper v = enum.value m).
  { intros m. unfold enum.call, enum.missing.
    destruct (find _ enum.members) as [m1|] eqn:E1.
    - apply Hfind in E1. subst v. rewrite upper_value. split.
      + intros H. injection H as <-. reflexivity.
      + intros H. apply value_injective in H. subst. reflexivity.
    - destruct (find (fun member =>
                        Strings.String.eqb (enum.value member) (enum.upper v))
                  enum.members) as [m2|] eqn:E2.
      + apply Hfind in E2. rewrite E2. split.
        * intros H. injection H as <-. reflexivity.
        * intros H. apply value_injective in H. subst. reflexivity.
      + split; [discriminate|]. intros H.
        apply Hfind in H. rewrite H in E2. discriminate E2. }
  split; [exact Hcall|]. split.
  - intros Hnone. cbn [enum.init_heatmap_mode].
    destruct (enum.call v) as [m|e] eqn:E.
    + destruct (Hnone m (proj1 (Hcall m) eq_refl)).
    + unfold enum.call in E.
      destruct (find _ enum.members); [discriminate|].
      destruct (enum.missing v); [discriminate|].
      symmetry. exact E.
  - intros m. split; [|reflexivity]. destruct m; reflexivity.
Qed.

Lemma mode_names_ignore_case_witness :
  enum.is_ascii enum.mixed_case_keypoint = true
  /\ enum.call enum.mixed_case_keypoint = OK KEYPOINT.
Proof.
  split; [reflexivity|].
  apply (proj1 (@mode_names_ignore_case enum.mixed_case_keypoint eq_refl)).
  reflexivity.
Defined.

(** ** The exceptions of forward *)

(** A loop raises only what its iterations raise. *)
Lemma for_each_exn (S : Type) (Inv : S -> Prop) (Q : exn -> Prop)
    (l : list nat) (body : nat -> S -> S * option exn) :
  (forall k st, In k l -> Inv st ->
     Inv (fst (body k st)) /\ (forall e, snd (body k st) = Some e -> Q e)) ->
  forall st, Inv st ->
    Inv (fst (for_each l body st))
    /\ (forall e, snd (for_each l body st) = Some e -> Q e).
Proof.
  induction l as [|k l IH]; intros Hbody st Hst; simpl.
  - split; [exact Hst | discriminate].
  - destruct (Hbody k st (or_introl eq_refl) Hst) as [Hinv Hsnd].
    destruct (body k st) as [st' [e'|]]; simpl in *.
    + split; [exact Hinv | exact Hsnd].
    + apply IH; [|exact Hinv].
      intros k' st1 Hin. apply Hbody. right. exact Hin.
Qed.

Lemma truth_value_exn (a : ndarray Z) (e : exn) :
  truth_value a = Raise e -> e = ValueError.
Proof.
  unfold truth_value. destruct (size (shape a)) as [|[|n]]; try discriminate.
  intros H. injection H as <-. reflexivity.
Qed.

Lemma update_exn (self : HeatmapGenerator) (grid : ndarray Z) (kp : Keypoint)
    (hm : ndarray R) (lm : option (ndarray R)) (lk : option (ndarray Z))
    (e : exn) :
  snd (update self grid kp hm lm lk) = Some e ->
  e = ValueError /\ kernel self = Gaussian /\ lk <> None.
Proof.
  unfold update. destruct (kernel self); [|discriminate].
  unfold gaussian_update. destruct lk as [m|]; [|discriminate].
  destruct (truth_value m) as [[|]|e'] eqn:E; try discriminate.
  simpl. intros H. injection H as <-.
  apply truth_value_exn in E. subst. repeat split. discriminate.
Qed.

(** What an iteration raises on buffers of the allocated shapes. *)
Lemma visit_exn (self : HeatmapGenerator) (grid : ndarray Z)
    (coords : ndarray R) (nb h w b idx s : nat) (st : buffers) (e : exn) :
  wf_buffers self nb h w st -> b < nb ->
  snd (visit self grid coords b idx s st) = Some e ->
  any_nonpositive (keypoint_at coords b idx s) = false
  /\ ((e = IndexError /\ num_heatmaps self <= idx)
      \/ (e = ValueError /\ kernel self = Gaussian
          /\ generate_locref self = true)).
Proof.
  intros [Hhm Hloc] Hb. unfold visit.
  destruct (any_nonpositive _); [discriminate|].
  intros H. split; [reflexivity|]. revert H.
  unfold take_channel. rewrite Hhm.
  replace (b <? nb) with true by (symmetry; apply Nat.ltb_lt; exact Hb).
  cbn [andb].
  destruct (Nat.ltb_spec idx (num_heatmaps self)) as [Hidx | Hidx].
  2: { simpl. intros H. injection H as <-. left. split; [reflexivity | exact Hidx]. }
  destruct (generate_locref self) eqn:Hg.
  - destruct Hloc as (lm & lk & Hlm & Hlk & Hslm & Hslk).
    rewrite Hlm, Hlk.
    destruct (@get_locref_ok R self lm nb h w _ b idx Hg Hslm Hb) as (vm & -> & _).
    destruct (@get_locref_ok Z self lk nb h w _ b idx Hg Hslk Hb) as (vk & -> & _).
    cbn [snd]. intros H. apply update_exn in H. destruct H as (-> & Hk & _).
    right. auto.
  - rewrite !get_locref_disabled by exact Hg.
    cbn [snd]. intros H. apply update_exn in H. destruct H as (_ & _ & Hn).
    destruct Hn. reflexivity.
Qed.

(** What the loops raise from the allocated buffers. *)
Lemma rasterize_exn (self : HeatmapGenerator) (grid : ndarray Z)
    (coords : ndarray R) (nb h w : nat) (st : buffers) (e : exn) :
  wf_buffers self nb h w st ->
  snd (rasterize self grid coords nb st) = Some e ->
  (e = IndexError
   /\ (nth 0 (shape coords) 0 < nb
       \/ num_heatmaps self < nth 1 (shape coords) 0))
  \/ (e = ValueError /\ kernel self = Gaussian /\ generate_locref self = true).
Proof.
  intros Hwf.
  set (Q := fun e =>
              (e = IndexError
               /\ (nth 0 (shape coords) 0 < nb
                   \/ num_heatmaps self < nth 1 (shape coords) 0))
              \/ (e = ValueError /\ kernel self = Gaussian
                  /\ generate_locref self = true)).
  revert e. change (forall e, snd (rasterize self grid coords nb st) = Some e -> Q e).
  unfold rasterize, for_range.
  apply (@for_each_exn buffers (wf_buffers self nb h w) Q); [|exact Hwf].
  intros b st1 Hb Hst1. apply in_seq in Hb.
  destruct (Nat.ltb_spec b (nth 0 (shape coords) 0)) as [Hlt | Hge].
  2: { split; [exact Hst1|]. intros e H. injection H as <-.
       left. split; [reflexivity|]. left. lia. }
  apply (@for_each_exn buffers (wf_buffers self nb h w) Q); [|exact Hst1].
  intros idx st2 Hidx Hst2. apply in_seq in Hidx.
  apply (@for_each_exn buffers (wf_buffers self nb h w) Q); [|exact Hst2].
  intros s st3 _ Hst3. split; [apply visit_wf; exact Hst3|].
  intros e H.
  apply (@visit_exn self grid coords nb h w b idx s st3 e Hst3) in H; [|lia].
  destruct H as [_ [[-> Hn] | H]].
  - left. split; [reflexivity|]. right. lia.
  - right. exact H.
Qed.

Lemma normalize_coords_exn (self : HeatmapGenerator) (nb : nat)
    (coords : ndarray R) (e : exn) :
  normalize_coords self nb coords = Raise e -> e = ValueError.
Proof.
  unfold normalize_coords.
  assert (Ht : forall (axes : list nat) (a : ndarray R),
             transpose axes a = Raise e -> e = ValueError).
  { intros axes a. unfold transpose.
    destruct (is_permutation _ _); [discriminate|].
    intros H. injection H as <-. reflexivity. }
  destruct (length (shape coords) =? 3).
  - unfold reshape. destruct (_ =? _).
    + cbn [bind]. destruct (heatmap_mode self); [discriminate | apply Ht].
    + cbn [bind]. intros H. injection H as <-. reflexivity.
  - cbn [bind]. destruct (heatmap_mode self); [discriminate | apply Ht].
Qed.

(** What the first part of [forward] raises. *)
Lemma fill_buffers_exn (self : HeatmapGenerator) (inputs : Inputs)
    (outputs : Outputs) (coords : ndarray R) (e : exn) :
  fill_buffers self inputs outputs coords = Raise e ->
  (e = ZeroDivisionError /\ (height outputs = 0 \/ width outputs = 0))
  \/ (height outputs <> 0 /\ width outputs <> 0
      /\ (e = ValueError
          \/ (e = IndexError
              /\ exists coords',
                   normalize_coords self (batch_size inputs) coords = OK coords'
                   /\ (nth 0 (shape coords') 0 < batch_size inputs
                       \/ num_heatmaps self < nth 1 (shape coords') 0)))).
Proof.
  unfold fill_buffers, true_div.
  destruct (Nat.eqb_spec (height outputs) 0) as [Hh | Hh].
  { cbn [bind]. intros H. injection H as <-. left. auto. }
  destruct (Nat.eqb_spec (width outputs) 0) as [Hw | Hw].
  { cbn [bind]. intros H. injection H as <-. left. auto. }
  cbn [bind]. right. split; [exact Hh|]. split; [exact Hw|].
  destruct (normalize_coords self (batch_size inputs) coords)
    as [coords'|e'] eqn:Ec.
  2: { cbn [bind] in H. injection H as <-.
       apply normalize_coords_exn in Ec. left. exact Ec. }
  cbn [bind] in H.
  match type of H with
  | context [build_grid ?a ?b ?c ?d] =>
      destruct (build_grid_item a b c d) as (grid & Eg & _)
  end.
  rewrite Eg in H. cbn [bind] in H.
  destruct (rasterize self grid coords' (batch_size inputs) _)
    as [st [e'|]] eqn:Er; [|discriminate].
  injection H as <-.
  assert (Hsnd : snd (rasterize self grid coords' (batch_size inputs)
                        (allocate self (batch_size inputs) (height outputs)
                           (width outputs))) = Some e')
    by (rewrite Er; reflexivity).
  apply (@rasterize_exn self grid coords' (batch_size inputs) (height outputs)
           (width outputs) _ e' (allocate_wf self _ _ _)) in Hsnd.
  destruct Hsnd as [[-> Hshape] | [-> _]].
  - right. split; [reflexivity|]. exists coords'. auto.
  - left. reflexivity.
Qed.

Lemma fill_buffers_nonzero (self : HeatmapGenerator) (inputs : Inputs)
    (outputs : Outputs) (coords : ndarray R) (st : buffers) :
  fill_buffers self inputs outputs coords = OK st ->
  height outputs <> 0 /\ width outputs <> 0.
Proof.
  intros H. apply fill_buffers_inv in H.
  destruct H as (sy & sx & c & g & Hy & Hx & _).
  unfold true_div in Hy, Hx.
  destruct (Nat.eqb_spec (height outputs) 0); [discriminate|].
  destruct (Nat.eqb_spec (width outputs) 0); [discriminate|].
  auto.
Qed.

(** What [assemble] raises on buffers of the allocated shapes. *)
Lemma assemble_exn (self : HeatmapGenerator) (outputs : Outputs)
    (nb h w : nat) (st : buffers) (e : exn) :
  wf_buffers self nb h w st ->
  assemble self outputs st = Raise e ->
  e = KeyError /\ generate_locref self = true /\ has_locref outputs = false.
Proof.
  intros [Hhm Hloc]. unfold assemble.
  destruct (@transpose_0312 R (heatmap st) _ _ _ _ Hhm) as (hm' & -> & _).
  cbn [bind]. destruct (generate_locref self); [|discriminate].
  destruct Hloc as (lm & lk & -> & -> & Hslm & Hslk).
  destruct (@transpose_0312 R lm _ _ _ _ Hslm) as (lm' & -> & _).
  destruct (@transpose_0312 Z lk _ _ _ _ Hslk) as (lk' & -> & _).
  cbn [bind]. destruct (has_locref outputs); [discriminate|].
  intros H. injection H as <-. auto.
Qed.

Lemma forward_exn (self : HeatmapGenerator) (inputs : Inputs)
    (outputs : Outputs) (coords : ndarray R) (e : exn) :
  forward self inputs outputs coords = Raise e ->
  fill_buffers self inputs outputs coords = Raise e
  \/ (height outputs <> 0 /\ width outputs <> 0
      /\ e = KeyError /\ generate_locref self = true
      /\ has_locref outputs = false).
Proof.
  unfold forward.
  destruct (fill_buffers self inputs outputs coords) as [st|e'] eqn:Ef.
  - cbn [bind]. intros H. right.
    destruct (fill_buffers_nonzero _ _ _ _ Ef) as [Hh Hw].
    apply fill_buffers_wf in Ef.
    apply (@assemble_exn self outputs _ _ _ st e Ef) in H.
    tauto.
  - cbn [bind]. intros H. left. injection H as <-. reflexivity.
Qed.

(** X4.  [forward] raises [ZeroDivisionError] exactly when the feature map
    of [outputs] has no rows or no columns, whatever the labels and the
    configuration. *)
Theorem forward_zero_division (self : HeatmapGenerator) (inputs : Inputs)
    (outputs : Outputs) (coords : ndarray R) :
  forward self inputs outputs coords = Raise ZeroDivisionError
  <-> height outputs = 0 \/ width outputs = 0.
Proof.
  split.
  - intros H. apply forward_exn in H. destruct H as [H | H].
    + apply fill_buffers_exn in H.
      destruct H as [[_ H] | (_ & _ & [H | [H _]])];
        [exact H | discriminate H | discriminate H].
    + destruct H as (_ & _ & H & _). discriminate H.
  - intros H. unfold forward, fill_buffers, true_div.
    destruct (Nat.eqb_spec (height outputs) 0) as [Hh | Hh]; [reflexivity|].
    destruct (Nat.eqb_spec (width outputs) 0) as [Hw | Hw]; [reflexivity|].
    destruct H; contradiction.
Qed.

(** X5.  On labels of coordinate pairs [forward] never raises
    [TypeError]: [get_locref] subscripts a buffer of the location refinement
    only when [generate_locref] holds, and then the buffer was allocated. *)
Theorem forward_never_type_error (self : HeatmapGenerator) (inputs : Inputs)
    (outputs : Outputs) (coords : ndarray R) :
  coordinate_pairs coords ->
  forward self inputs outputs coords <> Raise TypeError.
Proof.
  intros _ H. apply forward_exn in H. destruct H as [H | H].
  - apply fill_buffers_exn in H.
    destruct H as [[H _] | (_ & _ & [H | [H _]])]; discriminate H.
  - destruct H as (_ & _ & H & _). discriminate H.
Qed.

Lemma forward_never_type_error_witness :
  coordinate_pairs scenario_coords
  /\ forward gaussian_with_locref scenario_inputs scenario_outputs
       scenario_coords <> Raise TypeError.
Proof.
  split; [reflexivity|].
  apply forward_never_type_error. reflexivity.
Defined.

(** ** Labels of the expected shape *)

Lemma normalize_well_shaped (self : HeatmapGenerator) (nb : nat)
    (coords : ndarray R) :
  well_shaped self nb coords ->
  exists coords',
    normalize_coords self nb coords = OK coords'
    /\ nb <= nth 0 (shape coords') 0
    /\ nth 1 (shape coords') 0 <= num_heatmaps self.
Proof.
  unfold well_shaped, normalize_coords.
  destruct (shape coords) as [|n0 [|n1 [|n2 [|n3 [|n4 sh]]]]] eqn:Hsh;
    try contradiction.
  - intros (_ & -> & Hch). cbn [length Nat.eqb tl].
    destruct (@reshape_insert_axis R coords nb [n1; n2] Hsh)
      as (c1 & E1 & Hs1 & _).
    rewrite E1. cbn [bind]. destruct (heatmap_mode self).
    + exists c1. rewrite Hs1. cbn [nth]. auto.
    + destruct (@transpose_0213 R c1 nb 1 n1 n2 Hs1) as (c2 & E2 & Hs2 & _).
      exists c2. rewrite Hs2. cbn [nth]. auto.
  - intros (_ & Hnb & Hch). cbn [length Nat.eqb bind].
    destruct (heatmap_mode self).
    + exists coords. rewrite Hsh. cbn [nth]. auto.
    + destruct (@transpose_0213 R coords n0 n1 n2 n3 Hsh)
        as (c2 & E2 & Hs2 & _).
      exists c2. rewrite Hs2. cbn [nth]. auto.
Qed.

(** X6.  In a configuration whose update rule does not take the truth
    value of the mask (the Plateau generator, or a generator without
    location refinement), [forward] on a feature map with rows and columns
    and labels of coordinate pairs of the expected shape returns a target,
    except that it raises
    [KeyError] when the location refinement is generated and [outputs] has
    no key ["locref"]. *)
Theorem forward_well_shaped (self : HeatmapGenerator) (inputs : Inputs)
    (outputs : Outputs) (coords : ndarray R) :
  completes self ->
  height outputs <> 0 -> width outputs <> 0 ->
  well_shaped self (batch_size inputs) coords ->
  if generate_locref self && negb (has_locref outputs)
  then forward self inputs outputs coords = Raise KeyError
  else exists t, forward self inputs outputs coords = OK t.
Proof.
  intros Hc Hh Hw Hws.
  destruct (@normalize_well_shaped self (batch_size inputs) coords Hws)
    as (coords' & Ec & Hnb & Hnc).
  destruct (build_grid_item (height outputs) (width outputs)
              (inject_Z (Z.of_nat (input_h inputs))
               / inject_Z (Z.of_nat (height outputs)))%Q
              (inject_Z (Z.of_nat (input_w inputs))
               / inject_Z (Z.of_nat (width outputs)))%Q)
    as (grid & Eg & _).
  destruct (@rasterize_ok self grid coords' _ _ _ _ Hc Hnb Hnc
              (allocate_wf self (batch_size inputs) (height outputs)
                 (width outputs)))
    as (st & E & Hwf & _).
  assert (Hfwd : forward self inputs outputs coords = assemble self outputs st).
  { unfold forward, fill_buffers.
    rewrite (true_div_ok _ Hh), (true_div_ok _ Hw), Ec. cbn [bind].
    rewrite Eg. cbn [bind]. rewrite E. reflexivity. }
  rewrite Hfwd.
  destruct (generate_locref self) eqn:Hg; cbn [andb].
  - destruct (has_locref outputs) eqn:Ho; cbn [negb].
    + apply (@assemble_ok self outputs _ _ _ st Hwf). intros _. exact Ho.
    + destruct Hwf as [Hhm Hloc]. rewrite Hg in Hloc.
      destruct Hloc as (lm & lk & Hlm & Hlk & Hslm & Hslk).
      unfold assemble. rewrite Hg, Hlm, Hlk, Ho.
      destruct (@transpose_0312 R (heatmap st) _ _ _ _ Hhm) as (a1 & -> & _).
      destruct (@transpose_0312 R lm _ _ _ _ Hslm) as (a2 & -> & _).
      destruct (@transpose_0312 Z lk _ _ _ _ Hslk) as (a3 & -> & _).
      reflexivity.
  - apply (@assemble_ok self outputs _ _ _ st Hwf). congruence.
Qed.

Lemma forward_well_shaped_witness :
  completes plateau_with_locref
  /\ height scenario_outputs <> 0 /\ width scenario_outputs <> 0
  /\ well_shaped plateau_with_locref (batch_size scenario_inputs)
       scenario_coords
  /\ exists t,
       forward plateau_with_locref scenario_inputs scenario_outputs
         scenario_coords = OK t.
Proof.
  assert (H1 : completes plateau_with_locref) by (left; reflexivity).
  assert (H2 : height scenario_outputs <> 0) by discriminate.
  assert (H3 : width scenario_outputs <> 0) by discriminate.
  assert (H4 : well_shaped plateau_with_locref (batch_size scenario_inputs)
                 scenario_coords)
    by (unfold well_shaped; simpl; repeat split; lia).
  repeat (split; [assumption|]).
  exact (@forward_well_shaped plateau_with_locref scenario_inputs
           scenario_outputs scenario_coords H1 H2 H3 H4).
Defined.

(** X7.  On labels of coordinate pairs [forward] raises [IndexError] only
    when the batch axis of the labels is shorter than the batch or when they
    have more channels than the generator has heatmaps; and in a
    configuration whose update rule does not take the truth value of the
    mask it does raise it for a keypoint with two positive coordinates in a
    channel beyond [num_heatmaps]. *)
Theorem forward_index_error (self : HeatmapGenerator) (inputs : Inputs)
    (outputs : Outputs) (coords : ndarray R) :
  coordinate_pairs coords ->
  (forward self inputs outputs coords = Raise IndexError ->
   exists coords',
     normalize_coords self (batch_size inputs) coords = OK coords'
     /\ (nth 0 (shape coords') 0 < batch_size inputs
         \/ num_heatmaps self < nth 1 (shape coords') 0))
  /\ (forall coords' b0 idx0 s0,
        completes self ->
        height outputs <> 0 -> width outputs <> 0 ->
        normalize_coords self (batch_size inputs) coords = OK coords' ->
        batch_size inputs <= nth 0 (shape coords') 0 ->
        b0 < batch_size inputs ->
        num_heatmaps self <= idx0 < nth 1 (shape coords') 0 ->
        s0 < nth 2 (shape coords') 0 ->
        any_nonpositive (keypoint_at coords' b0 idx0 s0) = false ->
        forward self inputs outputs coords = Raise IndexError).
Proof.
  intros _. split.
  - intros H. apply forward_exn in H. destruct H as [H | H].
    + apply fill_buffers_exn in H.
      destruct H as [[H _] | (_ & _ & [H | [_ H]])];
        [discriminate H | discriminate H | exact H].
    + destruct H as (_ & _ & H & _). discriminate H.
  - intros coords' b0 idx0 s0 Hc Hh Hw Ec Hnb Hb0 Hidx0 Hs0 Hvalid.
    destruct (build_grid_item (height outputs) (width outputs)
                (inject_Z (Z.of_nat (input_h inputs))
                 / inject_Z (Z.of_nat (height outputs)))%Q
                (inject_Z (Z.of_nat (input_w inputs))
                 / inject_Z (Z.of_nat (width outputs)))%Q)
      as (grid & Eg & _).
    set (Inv := wf_buffers self (batch_size inputs) (height outputs)
                  (width outputs)).
    assert (Hvisit : forall b idx s st,
               b < batch_size inputs -> Inv st ->
               Inv (fst (visit self grid coords' b idx s st))
               /\ (snd (visit self grid coords' b idx s st) = None
                   \/ snd (visit self grid coords' b idx s st)
                      = Some IndexError)).
    { intros b idx s st Hb Hst. split; [apply visit_wf; exact Hst|].
      destruct (snd (visit self grid coords' b idx s st)) as [e|] eqn:E;
        [|left; reflexivity].
      apply (@visit_exn self grid coords' _ _ _ b idx s st e Hst Hb) in E.
      destruct E as [_ [[-> _] | (_ & Hk & Hg)]]; [right; reflexivity|].
      destruct Hc as [Hc | Hc]; congruence. }
    assert (Hinner : forall b idx st,
               b < batch_size inputs -> Inv st ->
               let r := for_range (nth 2 (shape coords') 0)
                          (fun s st => visit self grid coords' b idx s st) st in
               Inv (fst r) /\ (snd r = None \/ snd r = Some IndexError)).
    { intros b idx st Hb Hst. apply for_each_outcomes; [|exact Hst].
      intros s st1 _ Hst1. apply Hvisit; assumption. }
    assert (Hmiddle : forall b st,
               b < batch_size inputs -> Inv st ->
               let r := for_range (nth 1 (shape coords') 0)
                          (fun idx st =>
                             for_range (nth 2 (shape coords') 0)
                               (fun s st => visit self grid coords' b idx s st)
                               st)
                          st in
               Inv (fst r) /\ (snd r = None \/ snd r = Some IndexError)).
    { intros b st Hb Hst. apply for_each_outcomes; [|exact Hst].
      intros idx st1 _ Hst1. apply Hinner; assumption. }
    assert (Hraise : snd (rasterize self grid coords' (batch_size inputs)
                            (allocate self (batch_size inputs)
                               (height outputs) (width outputs)))
                     = Some IndexError).
    { unfold rasterize.
      apply (@for_each_raises buffers Inv IndexError
               (seq 0 (batch_size inputs)) _ b0).
      - apply in_seq. lia.
      - intros b st Hin Hst. apply in_seq in Hin.
        replace (b <? nth 0 (shape coords') 0) with true
          by (symmetry; apply Nat.ltb_lt; lia).
        apply Hmiddle; [lia | exact Hst].
      - intros st Hst.
        replace (b0 <? nth 0 (shape coords') 0) with true
          by (symmetry; apply Nat.ltb_lt; lia).
        apply (@for_each_raises buffers Inv IndexError
                 (seq 0 (nth 1 (shape coords') 0)) _ idx0).
        + apply in_seq. lia.
        + intros idx st1 _ Hst1. apply Hinner; assumption.
        + intros st1 Hst1.
          apply (@for_each_raises buffers Inv IndexError
                   (seq 0 (nth 2 (shape coords') 0)) _ s0).
          * apply in_seq. lia.
          * intros s st2 _ Hst2. apply Hvisit; assumption.
          * intros st2 [Hhm _]. unfold visit. rewrite Hvalid.
            unfold take_channel. rewrite Hhm.
            replace (idx0 <? num_heatmaps self) with false
              by (symmetry; apply Nat.ltb_ge; lia).
            rewrite andb_false_r. reflexivity.
          * exact Hst1.
        + exact Hst.
      - apply allocate_wf. }
    unfold forward, fill_buffers.
    rewrite (true_div_ok _ Hh), (true_div_ok _ Hw), Ec. cbn [bind].
    rewrite Eg. cbn [bind].
    destruct (rasterize self grid coords' (batch_size inputs) _) as [st [e|]];
      simpl in Hraise; [|discriminate].
    injection Hraise as ->. reflexivity.
Qed.

Lemma forward_index_error_witness :
  coordinate_pairs three_keypoints
  /\ forward plateau_with_locref scenario_inputs scenario_outputs
       three_keypoints = Raise IndexError.
Proof.
  split; [reflexivity|].
  eapply (proj2 (@forward_index_error plateau_with_locref scenario_inputs
                   scenario_outputs three_keypoints eq_refl) _ 0 2 0);
    try reflexivity; try discriminate; try (simpl; lia).
  - left. reflexivity.
  - apply not_true_is_false. intros H.
    apply any_nonpositive_iff in H. simpl in H. lra.
Defined.

(** ** The heatmap of a channel as a function of its keypoints *)

Lemma update_all_other (self : HeatmapGenerator) (grid : ndarray Z)
    (lm : option (ndarray R)) (lk : option (ndarray Z))
    (ks : list Keypoint) (hm : ndarray R) (idx : list nat) :
  length idx <> 2 ->
  item (update_all self grid lm lk ks hm) idx = item hm idx.
Proof.
  intros Hlen. revert hm. induction ks as [|kp ks IH]; intros hm;
    [reflexivity|].
  change (update_all self grid lm lk (kp :: ks) hm)
    with (update_all self grid lm lk ks
            (v_heatmap (fst (update self grid kp hm lm lk)))).
  rewrite IH. apply update_heatmap_other. exact Hlen.
Qed.

(** The value of a cell after the merges of a list of keypoints: at least
    the previous value and the response of every keypoint, and one of
    them. *)
Lemma fold_merge_gaussian (self : HeatmapGenerator) (grid : ndarray Z)
    (i j : nat) (ks : list Keypoint) (v : R) :
  kernel self = Gaussian ->
  let r := fold_left (fun v' kp => merge self grid kp v' i j) ks v in
  (v <= r)%R
  /\ (forall kp, In kp ks -> (heatmap_j self grid kp i j <= r)%R)
  /\ (r = v \/ exists kp, In kp ks /\ r = heatmap_j self grid kp i j).
Proof.
  intros Hk. revert v. induction ks as [|k ks IH]; intros v; simpl.
  - split; [lra|]. split; [intros kp []|]. left. reflexivity.
  - specialize (IH (merge self grid k v i j)). simpl in IH.
    destruct IH as (H1 & H2 & H3).
    assert (Hm : merge self grid k v i j = Rmax v (heatmap_j self grid k i j))
      by (unfold merge; rewrite Hk; reflexivity).
    pose proof (Rmax_l v (heatmap_j self grid k i j)) as Hl.
    pose proof (Rmax_r v (heatmap_j self grid k i j)) as Hr.
    rewrite Hm in *. split; [lra|]. split.
    + intros kp [<- | Hin]; [lra | apply H2; exact Hin].
    + destruct H3 as [H3 | (kp & Hin & H3)].
      * rewrite H3. unfold Rmax. destruct (Rle_dec _ _).
        -- right. exists k. split; [left; reflexivity | reflexivity].
        -- left. reflexivity.
      * right. exists kp. split; [right; exact Hin | exact H3].
Qed.

Lemma fold_merge_plateau (self : HeatmapGenerator) (grid : ndarray Z)
    (i j : nat) (ks : list Keypoint) (v : R) :
  kernel self = Plateau ->
  fold_left (fun v' kp => merge self grid kp v' i j) ks v
  = if existsb (fun kp => plateau_mask self grid kp i j) ks then 1%R else v.
Proof.
  intros Hk. revert v. induction ks as [|k ks IH]; intros v;
    cbn [fold_left existsb].
  - reflexivity.
  - rewrite IH. unfold merge. rewrite Hk.
    destruct (plateau_mask self grid k i j); cbn [orb].
    + destruct (existsb _ ks); reflexivity.
    + reflexivity.
Qed.

Lemma fold_merge_set (self : HeatmapGenerator) (grid : ndarray Z)
    (i j : nat) (ks ks' : list Keypoint) (v : R) :
  (forall kp, In kp ks <-> In kp ks') ->
  fold_left (fun v' kp => merge self grid kp v' i j) ks v
  = fold_left (fun v' kp => merge self grid kp v' i j) ks' v.
Proof.
  intros Hset. destruct (kernel self) eqn:Hk.
  - destruct (@fold_merge_gaussian self grid i j ks v Hk) as (A1 & A2 & A3).
    destruct (@fold_merge_gaussian self grid i j ks' v Hk) as (B1 & B2 & B3).
    apply Rle_antisym.
    + destruct A3 as [-> | (kp & Hin & ->)]; [exact B1|].
      apply B2, Hset, Hin.
    + destruct B3 as [-> | (kp & Hin & ->)]; [exact A1|].
      apply A2, Hset, Hin.
  - rewrite !fold_merge_plateau by exact Hk.
    assert (E : existsb (fun kp => plateau_mask self grid kp i j) ks
                = existsb (fun kp => plateau_mask self grid kp i j) ks').
    { apply eq_true_iff_eq. rewrite !existsb_exists.
      split; intros (kp & Hin & H); exists kp; split;
        try exact H; apply Hset; exact Hin. }
    rewrite E. reflexivity.
Qed.

(** X8.  The heatmap of a channel after the calls of [update] for a list
    of keypoints depends only on which keypoints the list holds, for both
    rules and whatever the heatmap held before: neither the order of the
    subjects nor a repeated keypoint changes it. *)
Theorem heatmap_of_keypoint_set (self : HeatmapGenerator) (grid : ndarray Z)
    (lm : option (ndarray R)) (lk : option (ndarray Z))
    (ks ks' : list Keypoint) (hm : ndarray R) (idx : list nat) :
  (forall kp, In kp ks <-> In kp ks') ->
  item (update_all self grid lm lk ks hm) idx
  = item (update_all self grid lm lk ks' hm) idx.
Proof.
  intros Hset. destruct (Nat.eq_dec (length idx) 2) as [Hlen | Hlen].
  - destruct idx as [|i [|j [|k idx]]]; try discriminate Hlen.
    rewrite !update_all_item. apply fold_merge_set. exact Hset.
  - rewrite !update_all_other by exact Hlen. reflexivity.
Qed.

Lemma heatmap_of_keypoint_set_witness :
  (forall kp, In kp [(3, 3)%R; (5, 1)%R] <-> In kp [(5, 1)%R; (3, 3)%R; (5, 1)%R])
  /\ item (update_all gaussian_no_locref scenario_grid None None
             [(3, 3)%R; (5, 1)%R] (zeros 0%R [4; 4])) [1; 2]
     = item (update_all gaussian_no_locref scenario_grid None None
               [(5, 1)%R; (3, 3)%R; (5, 1)%R] (zeros 0%R [4; 4])) [1; 2].
Proof.
  assert (H : forall kp : Keypoint,
             In kp [(3, 3)%R; (5, 1)%R]
             <-> In kp [(5, 1)%R; (3, 3)%R; (5, 1)%R])
    by (intros kp; simpl; tauto).
  split; [exact H|].
  exact (@heatmap_of_keypoint_set gaussian_no_locref scenario_grid None None
           _ _ (zeros 0%R [4; 4]) [1; 2] H).
Defined.

(** ** The views of the location refinement buffers *)

(** X9.  [get_locref] returns [None] when the location refinement is not
    generated, whatever it is given.  Otherwise it returns, for a buffer
    with two channels per heatmap, the view of the channels [2 idx] and
    [2 idx + 1] of batch element [b]; for a heatmap index beyond
    [num_heatmaps] the slice is empty and nothing is raised, while a batch
    index out of bounds raises [IndexError]. *)
Theorem get_locref_views (A : Type) (self : HeatmapGenerator)
    (a : ndarray A) (nb h w b idx : nat) :
  shape a = [nb; h; w; num_heatmaps self * 2] ->
  (generate_locref self = false ->
   forall x : option (ndarray A), get_locref self x b idx = OK None)
  /\ (generate_locref self = true ->
      (nb <= b -> get_locref self (Some a) b idx = Raise IndexError)
      /\ (b < nb ->
          exists v,
            get_locref self (Some a) b idx = OK (Some v)
            /\ shape v = [h; w; if idx <? num_heatmaps self then 2 else 0]
            /\ forall i j k, item v [i; j; k] = item a [b; i; j; 2 * idx + k])).
Proof.
  intros Hsh. split.
  - intros Hg x. apply get_locref_disabled. exact Hg.
  - intros Hg. unfold get_locref, take_slice. rewrite Hg, Hsh. cbn [negb].
    split.
    + intros Hb.
      replace (b <? nb) with false by (symmetry; apply Nat.ltb_ge; exact Hb).
      reflexivity.
    + intros Hb.
      replace (b <? nb) with true by (symmetry; apply Nat.ltb_lt; exact Hb).
      cbn [bind]. eexists. split; [reflexivity|]. split.
      * cbn [shape]. do 3 f_equal.
        destruct (Nat.ltb_spec idx (num_heatmaps self)); lia.
      * intros i j k. reflexivity.
Qed.

Lemma get_locref_views_witness :
  shape (zeros 0%R [1; 4; 4; 4]) = [1; 4; 4; num_heatmaps plateau_with_locref * 2]
  /\ exists v,
       get_locref plateau_with_locref (Some (zeros 0%R [1; 4; 4; 4])) 0 2
       = OK (Some v)
       /\ shape v = [4; 4; 0].
Proof.
  split; [reflexivity|].
  destruct (proj2 (proj2 (@get_locref_views R plateau_with_locref
                            (zeros 0%R [1; 4; 4; 4]) 1 4 4 0 2 eq_refl)
                     eq_refl) (Nat.lt_0_succ 0))
    as (v & Hv & Hs & _).
  exists v. split; [exact Hv | exact Hs].
Defined.

Lemma put_locref_other (A : Type) (a : option (ndarray A)) (b idx : nat)
    (v : option (ndarray A)) (b' i j c k : nat) :
  b' <> b \/ c <> idx -> k < 2 ->
  option_item (put_locref a b idx v) [b'; i; j; 2 * c + k]
  = option_item a [b'; i; j; 2 * c + k].
Proof.
  intros Hne Hk. destruct a as [a|]; [|reflexivity].
  destruct v as [v|]; [|reflexivity]. simpl.
  destruct (Nat.eqb_spec b' b) as [-> | Hb]; simpl; [|reflexivity].
  destruct Hne as [Hne | Hne]; [contradiction|].
  destruct (Nat.leb_spec (idx + (idx + 0)) (c + (c + 0) + k)); simpl;
    [|reflexivity].
  destruct (Nat.ltb_spec (c + (c + 0) + k) (idx + (idx + 0) + 2));
    [lia | reflexivity].
Qed.

(** X10.  The iteration for channel [idx] of batch element [b] leaves
    every other channel of every batch element as it is: the cells of the
    heatmap outside [heatmap[b, :, :, idx]] and those of the location
    refinement map and mask outside channels [2 idx] and [2 idx + 1] of
    batch element [b] keep their values, for both rules and also when the
    iteration raises. *)
Theorem visit_touches_one_channel (self : HeatmapGenerator)
    (grid : ndarray Z) (coords : ndarray R) (b idx s : nat) (st : buffers)
    (b' i j c : nat) :
  b' <> b \/ c <> idx ->
  let st' := fst (visit self grid coords b idx s st) in
  item (heatmap st') [b'; i; j; c] = item (heatmap st) [b'; i; j; c]
  /\ forall k, k < 2 ->
       option_item (locref_map st') [b'; i; j; 2 * c + k]
       = option_item (locref_map st) [b'; i; j; 2 * c + k]
       /\ option_item (locref_mask st') [b'; i; j; 2 * c + k]
          = option_item (locref_mask st) [b'; i; j; 2 * c + k].
Proof.
  intros Hne st'. unfold st'.
  destruct (visit_cases self grid coords b idx s st)
    as [-> | (hm & lm & lk & _ & ->)].
  - split; [reflexivity|]. intros k _. split; reflexivity.
  - split.
    + simpl. destruct (Nat.eqb_spec b' b) as [-> | Hb]; simpl; [|reflexivity].
      destruct (Nat.eqb_spec c idx) as [-> | Hc]; [|reflexivity].
      destruct Hne; contradiction.
    + intros k Hk. cbn [store locref_map locref_mask].
      split; apply put_locref_other; assumption.
Qed.

Lemma visit_touches_one_channel_witness :
  (0 <> 0 \/ 1 <> 0)
  /\ item (heatmap (fst (visit plateau_with_locref scenario_grid
                           scenario_coords 0 0 0
                           (allocate plateau_with_locref 1 4 4))))
       [0; 1; 1; 1] = 0%R.
Proof.
  assert (H : 0 <> 0 \/ 1 <> 0) by (right; discriminate).
  split; [exact H|].
  exact (proj1 (@visit_touches_one_channel plateau_with_locref scenario_grid
                  scenario_coords 0 0 0 (allocate plateau_with_locref 1 4 4)
                  0 1 1 1 H)).
Defined.

(** X11.  The offsets that the rules write decode to the keypoint: where
    the location refinement map is written (every cell for the Gaussian
    rule, the cells within [dist_thresh] for the Plateau rule), channel 0
    times [locref_std] added to the column of the cell's centre is the
    column of the keypoint, and channel 1 likewise for the rows.
    [locref_std] is not zero. *)
Theorem locref_decodes_keypoint (self : HeatmapGenerator) (grid : ndarray Z)
    (kp : Keypoint) (hm lm : ndarray R) (lk : option (ndarray Z))
    (i j : nat) :
  locref_std self <> 0%R ->
  kernel self = Gaussian
  \/ (sq_distance grid kp i j <= dist_thresh_sq self)%R ->
  exists x y,
    option_item (v_locref_map (fst (update self grid kp hm (Some lm) lk)))
      [i; j; 0] = Some x
    /\ option_item (v_locref_map (fst (update self grid kp hm (Some lm) lk)))
         [i; j; 1] = Some y
    /\ (IZR (item grid [i; j; 1%nat]) + x * locref_std self = snd kp)%R
    /\ (IZR (item grid [i; j; 0%nat]) + y * locref_std self = fst kp)%R.
Proof.
  intros Hstd Hcell.
  exists (dx grid kp i j * locref_scale self)%R,
         (dy grid kp i j * locref_scale self)%R.
  assert (Hdec : (IZR (item grid [i; j; 1%nat])
                  + dx grid kp i j * locref_scale self * locref_std self
                  = snd kp)%R
                 /\ (IZR (item grid [i; j; 0%nat])
                     + dy grid kp i j * locref_scale self * locref_std self
                     = fst kp)%R).
  { unfold dx, dy, locref_scale. split; field; exact Hstd. }
  unfold update. destruct (kernel self) eqn:Hk.
  - unfold gaussian_update. destruct lk as [m|].
    + destruct (truth_value m) as [[|]|]; simpl; tauto.
    + simpl; tauto.
  - destruct Hcell as [Hcell | Hcell]; [discriminate|].
    assert (E : plateau_mask self grid kp i j = true)
      by (apply Rleb_true_iff; exact Hcell).
    simpl. rewrite E. tauto.
Qed.

Lemma locref_decodes_keypoint_witness :
  locref_std plateau_with_locref <> 0%R
  /\ exists x y,
       option_item
         (v_locref_map
            (fst (update plateau_with_locref scenario_grid (3.5, 2.5)%R
                    (zeros 0%R [4; 4]) (Some (zeros 0%R [4; 4; 2])) None)))
         [1; 1; 0] = Some x
       /\ option_item
            (v_locref_map
               (fst (update plateau_with_locref scenario_grid (3.5, 2.5)%R
                       (zeros 0%R [4; 4]) (Some (zeros 0%R [4; 4; 2])) None)))
            [1; 1; 1] = Some y
       /\ (IZR (item scenario_grid [1%nat; 1%nat; 1%nat])
           + x * locref_std plateau_with_locref
           = 2.5)%R
       /\ (IZR (item scenario_grid [1%nat; 1%nat; 0%nat])
           + y * locref_std plateau_with_locref
           = 3.5)%R.
Proof.
  assert (Hstd : locref_std plateau_with_locref <> 0%R)
    by (cbn [locref_std plateau_with_locref]; lra).
  split; [exact Hstd|].
  apply (@locref_decodes_keypoint plateau_with_locref scenario_grid
           (3.5, 2.5)%R (zeros 0%R [4; 4]) (zeros 0%R [4; 4; 2]) None 1 1 Hstd).
  right. unfold sq_distance, dist_thresh_sq, dist_thresh.
  replace (item scenario_grid [1; 1; 0]) with 3%Z by (vm_compute; reflexivity).
  replace (item scenario_grid [1; 1; 1]) with 3%Z by (vm_compute; reflexivity).
  cbn [fst snd pos_dist_thresh plateau_with_locref]. lra.
Defined.

(** ** The location refinement targets of the Plateau generator *)













(** ** The heatmap of the Gaussian generator *)



(** ** Batch elements are independent *)




